(** * Roomshare hook runtime: the stop-time quality gate and the command guard

    A shallow embedding of [.claude/hooks/stop_quality_gate.py] and theorems
    about it.  The hook is a Python script started by the agent host when the
    agent is about to stop; it inspects the project directory, spawns a few
    tools and answers with a process exit status plus text on its error
    stream.

    Conventions of the embedding
    - a Python [str] is a list of Unicode code points ([list N]);
    - the operating system (environment, file system, child processes) is a
      state [W] behind the interface [Host]; spawning a child may change it;
    - Python exceptions are values of type [exn]; a computation that may
      raise returns [exn + A];
    - [main] runs in a state-and-exception monad whose state carries the
      world, the log of [subprocess.run] calls and the texts printed on
      [sys.stderr];
    - paths are POSIX paths, normalised the way [pathlib] does. *)

From Stdlib Require Import List String Ascii ZArith NArith Bool Lia.
From Stdlib Require Import SpecFloat.
Import ListNotations.

Set Warnings "-register-all".

Local Open Scope list_scope.

(* ===================================================================== *)
(** * Python strings *)
(* ===================================================================== *)

Module PyStr.
(** A code point, and a string of them. *)
Definition char := N.
Definition str := list char.

(** String literals of the source are written [u "..."]. *)
Definition u (s : string) : str :=
  List.map N_of_ascii (list_ascii_of_string s).

Fixpoint str_eqb (a b : str) : bool :=
  match a, b with
  | [], [] => true
  | x :: a', y :: b' => N.eqb x y && str_eqb a' b'
  | _, _ => false
  end.

(** [str.isspace] for one character: the code points for which CPython's
    [_PyUnicode_IsWhitespace] answers true. *)
Definition isspace (c : char) : bool :=
  (((9 <=? c) && (c <=? 13))
  || ((28 <=? c) && (c <=? 32))
  || (c =? 133) || (c =? 160) || (c =? 5760)
  || ((8192 <=? c) && (c <=? 8202))
  || (c =? 8232) || (c =? 8233) || (c =? 8239) || (c =? 8287)
  || (c =? 12288))%N.

(** The line boundaries of [str.splitlines]:
    LF, VT, FF, CR, FS, GS, RS, NEL, LS, PS (and CR LF as one). *)
Definition islinebreak (c : char) : bool :=
  (((10 <=? c) && (c <=? 13))
   || ((28 <=? c) && (c <=? 30))
   || (c =? 133) || (c =? 8232) || (c =? 8233))%N.

Fixpoint lstrip (s : str) : str :=
  match s with
  | c :: s' => if isspace c then lstrip s' else s
  | [] => []
  end.

(** [s.rstrip()]: drop the trailing run of whitespace. *)
Fixpoint rstrip (s : str) : str :=
  match s with
  | [] => []
  | c :: s' =>
      match rstrip s' with
      | [] => if isspace c then [] else [c]
      | t => c :: t
      end
  end.

(** [s.strip()] *)
Definition strip (s : str) : str := rstrip (lstrip s).

(** [s.splitlines()]: [cur] is the line being read, reversed.  A line
    that is still open at the end of the text is kept when it is not
    empty, so a final line break does not produce an empty last line. *)
Fixpoint splitlines_from (cur : str) (s : str) : list str :=
  match s with
  | [] => match cur with [] => [] | _ => [rev cur] end
  | c :: s' =>
      if c =? 13 then
        match s' with
        | 10 :: s'' => rev cur :: splitlines_from [] s''
        | _ => rev cur :: splitlines_from [] s'
        end
      else if islinebreak c then rev cur :: splitlines_from [] s'
      else splitlines_from (c :: cur) s'
  end%N.

Definition splitlines (s : str) : list str := splitlines_from [] s.

(** [s.replace(a, b)] for one-character [a] and [b], which is how the
    hook calls it. *)
Definition replace_char (a b : char) (s : str) : str :=
  List.map (fun c => if N.eqb c a then b else c) s.

(** [s.startswith(prefix)] *)
Fixpoint startswith (s prefix : str) : bool :=
  match prefix, s with
  | [], _ => true
  | p :: prefix', c :: s' => N.eqb c p && startswith s' prefix'
  | _ :: _, [] => false
  end.

(** [s.startswith(prefixes)] with a tuple of prefixes. *)
Definition startswith_any (s : str) (prefixes : list str) : bool :=
  existsb (startswith s) prefixes.

(** [needle in s] for two strings: substring test. *)
Fixpoint contains (s needle : str) : bool :=
  startswith s needle
  || match s with
     | [] => false
     | _ :: s' => contains s' needle
     end.

(** [s[:n]] *)
Definition slice_to (n : nat) (s : str) : str := firstn n s.

(** Truth value of a string: non-empty. *)
Definition truthy (s : str) : bool :=
  match s with [] => false | _ => true end.

End PyStr.
Import PyStr.

(* ===================================================================== *)
(** * Values, exceptions and the host platform *)
(* ===================================================================== *)

(** What [json.loads] returns.  A [JDict] is the Python [dict] built by the
    parser: every key occurs once. *)
Inductive json : Type :=
| JNull
| JBool (b : bool)
| JInt (n : Z)
| JFloat (f : spec_float)
| JStr (s : str)
| JList (items : list json)
| JDict (entries : list (str * json)).

(** The exceptions that can occur in the hook.  All of them are subclasses
    of Python's [Exception]. *)
Inductive exn : Type :=
| TimeoutExpired   (* subprocess.TimeoutExpired: the child ran out of time *)
| OSError          (* FileNotFoundError, PermissionError, ...: a child that
                      cannot be started, a file that cannot be read *)
| ValueError       (* json.JSONDecodeError, UnicodeDecodeError *)
| AttributeError
| TypeError
| IndexError.

(** [subprocess.CompletedProcess] with captured text streams. *)
Record CompletedProcess : Type := mkCompleted {
  returncode : Z;
  stdout : str;
  stderr : str
}.

(** A [pathlib.Path] on a POSIX system, held as the text [str(path)]
    gives. *)
Definition Path := str.

(** The text between the slashes of [s]; [cur] is the piece being read,
    reversed. *)
Fixpoint split_slash (cur : str) (s : str) : list str :=
  match s with
  | [] => [rev cur]
  | c :: s' =>
      if (c =? 47)%N then rev cur :: split_slash [] s'
      else split_slash (c :: cur) s'
  end.

(** The components pathlib keeps: empty pieces and [.] are dropped, [..]
    stays. *)
Definition path_parts (s : str) : list str :=
  List.filter (fun piece => truthy piece && negb (str_eqb piece (u ".")))
              (split_slash [] s).

(** The root pathlib finds: [/] for one leading slash or for three and
    more, [//] for exactly two, nothing for a relative path. *)
Definition path_root (s : str) : str :=
  match s with
  | c1 :: s1 =>
      if (c1 =? 47)%N then
        match s1 with
        | c2 :: s2 =>
            if (c2 =? 47)%N then
              match s2 with
              | c3 :: _ => if (c3 =? 47)%N then u "/" else u "//"
              | [] => u "//"
              end
            else u "/"
        | [] => u "/"
        end
      else []
  | [] => []
  end.

Fixpoint join_slash (parts : list str) : str :=
  match parts with
  | [] => []
  | [piece] => piece
  | piece :: rest => piece ++ u "/" ++ join_slash rest
  end.

(** [str(Path(s))]: root and components, [.] for the empty path. *)
Definition Path_of (s : str) : Path :=
  match path_root s, path_parts s with
  | [], [] => u "."
  | root, parts => root ++ join_slash parts
  end.

(** [posixpath.join(a, b)], by which pathlib puts two segments together. *)
Definition posix_join (a b : str) : str :=
  if startswith b (u "/") then b
  else match rev a with
       | [] => b
       | last :: _ => if (last =? 47)%N then a ++ b else a ++ u "/" ++ b
       end.

(** [dir / name] *)
Definition joinpath (dir : Path) (name : str) : Path :=
  Path_of (posix_join dir name).

(** One call of [subprocess.run], with how it ended. *)
Record Call : Type := mkCall {
  c_cmd : list str;
  c_cwd : Path;
  c_timeout : nat;
  c_outcome : exn + CompletedProcess
}.

(** The platform the hook runs on.  [W] is the state of the machine;
    [subprocess_run] starts a child, waits for it at most [timeout] seconds
    and gives the machine back in its new state; [stderr_print] is
    [print(text, file=sys.stderr)], which answers with the exception it
    raised when the stream cannot be written. *)
Class Host (W : Type) : Type := {
  environ_get : W -> str -> option str;
  getcwd : W -> exn + Path;
  path_exists : W -> Path -> bool;
  read_text : W -> Path -> exn + str;
  json_loads : str -> exn + json;
  subprocess_run : W -> list str -> Path -> nat -> (exn + CompletedProcess) * W;
  stderr_print : W -> str -> option exn * W
}.

(** How the interpreter process ends: [raise SystemExit(n)], or an
    exception nobody caught. *)
Inductive ProcessEnd : Type :=
| Exit (code : Z)
| Uncaught (e : exn).

(** The exit status the host observes; CPython ends with status 1 after
    printing the traceback of an uncaught exception (where even that cannot
    be written, its finalisation reports 120 in place of 1). *)
Definition exit_status (p : ProcessEnd) : Z :=
  match p with
  | Exit code => code
  | Uncaught _ => 1
  end.

(** The two verdicts of the decision protocol. *)
Definition allow : Z := 0.
Definition block : Z := 2.

(* ===================================================================== *)
(** * stop_quality_gate.py *)
(* ===================================================================== *)

(** Python truth value of a parsed JSON value. *)
Definition json_truthy (v : json) : bool :=
  match v with
  | JNull => false
  | JBool b => b
  | JInt n => negb (Z.eqb n 0)
  | JFloat (S754_zero _) => false
  | JFloat _ => true
  | JStr s => truthy s
  | JList items => match items with [] => false | _ => true end
  | JDict entries => match entries with [] => false | _ => true end
  end.

(** [d.get(key)] on a dict: the value, or [None]. *)
Fixpoint dict_get (entries : list (str * json)) (key : str) : json :=
  match entries with
  | [] => JNull
  | (k, v) :: rest => if str_eqb k key then v else dict_get rest key
  end.

(** [data.get(key)]: only a dict has the method. *)
Definition json_get (data : json) (key : str) : exn + json :=
  match data with
  | JDict entries => inr (dict_get entries key)
  | _ => inl AttributeError
  end.

(** [x == s] for a parsed value [x] and a string [s]. *)
Definition json_eq_str (x : json) (s : str) : bool :=
  match x with
  | JStr t => str_eqb t s
  | _ => false
  end.

(** [key in container] *)
Definition json_contains (container : json) (key : str) : exn + bool :=
  match container with
  | JDict entries => inr (existsb (fun kv => str_eqb (fst kv) key) entries)
  | JList items => inr (existsb (fun x => json_eq_str x key) items)
  | JStr s => inr (contains s key)
  | _ => inl TypeError
  end.

(** TEST_RELEVANT_PREFIXES (lines 9-16) *)
Definition TEST_RELEVANT_PREFIXES : list str :=
  [u "src/"; u "app/"; u "pages/"; u "server/"; u "api/"; u "prisma/"].

(** The list comprehension of line 55:
    [[line.strip().replace("\\", "/") for line in out.splitlines()
      if line.strip()]] *)
Definition changed_files (out : str) : list str :=
  List.map (fun line => replace_char 92%N 47%N (strip line))
           (List.filter (fun line => truthy (strip line)) (splitlines out)).

Section Gate.

Context {W : Type} {host : Host W}.

(** ** Functions that only look at the project *)

(** detect_pm (lines 21-28) *)
Definition detect_pm (w : W) (project_dir : Path) : list str :=
  if path_exists w (joinpath project_dir (u "pnpm-lock.yaml")) then [u "pnpm"]
  else if path_exists w (joinpath project_dir (u "yarn.lock")) then [u "yarn"]
  else if path_exists w (joinpath project_dir (u "bun.lockb")) then [u "bun"]
  else [u "npm"].

(** The body of the [try] of has_script (lines 35-38). *)
Definition has_script_try (w : W) (pkg : Path) (script : str) : exn + bool :=
  match read_text w pkg with
  | inl e => inl e
  | inr text =>
      match json_loads text with
      | inl e => inl e
      | inr data =>
          match json_get data (u "scripts") with
          | inl e => inl e
          | inr found =>
              let scripts := if json_truthy found then found else JDict [] in
              json_contains scripts script
          end
      end
  end.

(** has_script (lines 30-40): [except Exception: return False] *)
Definition has_script (w : W) (project_dir : Path) (script : str) : bool :=
  let pkg := joinpath project_dir (u "package.json") in
  if negb (path_exists w pkg) then false
  else match has_script_try w pkg script with
       | inr b => b
       | inl _ => false
       end.

(** ** The monad of [main] *)

Record St : Type := mkSt {
  world : W;
  calls : list Call;       (* every subprocess.run so far, oldest first *)
  printed : list str       (* every print(..., file=sys.stderr) that returned *)
}.

Definition M (A : Type) : Type := St -> (exn + A) * St.

Definition ret {A} (a : A) : M A := fun st => (inr a, st).

Definition raise {A} (e : exn) : M A := fun st => (inl e, st).

Definition bind {A B} (m : M A) (k : A -> M B) : M B :=
  fun st =>
    match m st with
    | (inr a, st') => k a st'
    | (inl e, st') => (inl e, st')
    end.

(** Read something off the current world. *)
Definition ask {A} (f : W -> A) : M A := fun st => (inr (f (world st)), st).

(** An operation of the platform that may raise. *)
Definition attempt {A} (f : W -> exn + A) : M A := fun st => (f (world st), st).

(** run (lines 18-19): the call is logged with its outcome, and an
    exception of [subprocess.run] is raised to the caller. *)
Definition run (cmd : list str) (cwd : Path) (timeout : nat) : M CompletedProcess :=
  fun st =>
    let '(outcome, w') := subprocess_run (world st) cmd cwd timeout in
    (outcome,
     {| world := w';
        calls := calls st ++ [mkCall cmd cwd timeout outcome];
        printed := printed st |}).

(** [print(text, file=sys.stderr)]: the text is recorded once it is
    written; an exception of the stream is raised to the caller. *)
Definition eprint (text : str) : M unit :=
  fun st =>
    match stderr_print (world st) text with
    | (None, w') =>
        (inr tt,
         {| world := w'; calls := calls st; printed := printed st ++ [text] |})
    | (Some e, w') =>
        (inl e, {| world := w'; calls := calls st; printed := printed st |})
    end.

Notation "x <- c1 ;; c2" := (bind c1 (fun x => c2))
  (at level 61, c1 at next level, right associativity).
Notation "c1 ;;; c2" := (bind c1 (fun _ => c2))
  (at level 61, right associativity).

(** [for e in errors: print(f"- {e}", file=sys.stderr)] *)
Fixpoint eprint_each (errors : list str) : M unit :=
  match errors with
  | [] => ret tt
  | e :: rest => eprint (u "- " ++ e) ;;; eprint_each rest
  end.

(** ** The stages of [main] *)

(** Line 43: both arguments of [os.environ.get] are evaluated, so
    [os.getcwd()] is called even when the variable is set. *)
Definition get_project_dir : M Path :=
  cwd <- attempt getcwd ;;
  env <- ask (fun w => environ_get w (u "CLAUDE_PROJECT_DIR")) ;;
  ret (Path_of (match env with Some dir => dir | None => cwd end)).

(** Lines 65-80: lint through the project script, else through a local
    eslint, else nothing. *)
Definition run_lint (project_dir : Path) (pm_cmd : str) (errors : list str)
  : M (list str) :=
  declared <- ask (fun w => has_script w project_dir (u "lint")) ;;
  if declared then
    r <- run [pm_cmd; u "run"; u "lint"] project_dir 900 ;;
    if negb (returncode r =? 0)%Z then
      let errors := errors ++ [u "lint failed"] in
      if truthy (strip (stderr r))
      then ret (errors ++ [slice_to 2000 (strip (stderr r))])
      else ret errors
    else ret errors
  else
    eslint_bin <- ask (fun w => path_exists w
                        (joinpath project_dir (u "node_modules/.bin/eslint"))) ;;
    if eslint_bin then
      r <- run [u "npx"; u "eslint"; u "."] project_dir 900 ;;
      if negb (returncode r =? 0)%Z then
        let errors := errors ++ [u "eslint failed"] in
        if truthy (strip (stderr r))
        then ret (errors ++ [slice_to 2000 (strip (stderr r))])
        else ret errors
      else ret errors
    else ret errors.

(** Lines 82-90: typecheck through the project script, else through tsc. *)
Definition run_typecheck (project_dir : Path) (pm_cmd : str) (errors : list str)
  : M (list str) :=
  declared <- ask (fun w => has_script w project_dir (u "typecheck")) ;;
  r <- (if declared
        then run [pm_cmd; u "run"; u "typecheck"] project_dir 900
        else run [u "npx"; u "tsc"; u "--noEmit"] project_dir 900) ;;
  if negb (returncode r =? 0)%Z then
    let errors := errors ++ [u "typecheck failed"] in
    if truthy (strip (stderr r))
    then ret (errors ++ [slice_to 2000 (strip (stderr r))])
    else ret errors
  else ret errors.

(** Lines 92-99: the tests, only when a changed path is in a core
    directory.  [and] does not evaluate has_script when [should_test] is
    false. *)
Definition run_tests (project_dir : Path) (pm_cmd : str) (changed : list str)
                     (errors : list str) : M (list str) :=
  let should_test :=
    existsb (fun p => startswith_any p TEST_RELEVANT_PREFIXES) changed in
  declared <- (if should_test
               then ask (fun w => has_script w project_dir (u "test"))
               else ret false) ;;
  if declared then
    r <- run [pm_cmd; u "test"] project_dir 900 ;;
    if negb (returncode r =? 0)%Z then
      let errors := errors ++ [u "tests failed"] in
      if truthy (strip (stderr r))
      then ret (errors ++ [slice_to 2000 (strip (stderr r))])
      else ret errors
    else ret errors
  else ret errors.

(** Lines 101-109 *)
Definition aggregate (errors : list str) : M Z :=
  match errors with
  | _ :: _ =>
      eprint (u "QUALITY GATE BLOCKED STOP:") ;;;
      eprint_each errors ;;;
      eprint ([10%N] ++ u "Fix the failures, then continue.") ;;;
      ret 2%Z
  | [] => ret 0%Z
  end.

(** main (lines 42-109) *)
Definition main : M Z :=
  project_dir <- get_project_dir ;;
  manifest <- ask (fun w => path_exists w (joinpath project_dir (u "package.json"))) ;;
  if negb manifest then ret 0%Z else
  git_dir <- ask (fun w => path_exists w (joinpath project_dir (u ".git"))) ;;
  if negb git_dir then ret 0%Z else
  diff <- run [u "git"; u "diff"; u "--name-only"] project_dir 30 ;;
  let changed := changed_files (stdout diff) in
  match changed with
  | [] => ret 0%Z
  | _ :: _ =>
      pm <- ask (fun w => detect_pm w project_dir) ;;
      pm_cmd <- match pm with
                | first :: _ => ret first
                | [] => raise IndexError
                end ;;
      let errors := [] in
      errors <- run_lint project_dir pm_cmd errors ;;
      errors <- run_typecheck project_dir pm_cmd errors ;;
      errors <- run_tests project_dir pm_cmd changed errors ;;
      aggregate errors
  end.

(** The state in which the interpreter starts the script. *)
Definition boot (w : W) : St := {| world := w; calls := []; printed := [] |}.

(** Lines 111-112: [raise SystemExit(main())] *)
Definition hook (w : W) : ProcessEnd * St :=
  match main (boot w) with
  | (inr code, st) => (Exit code, st)
  | (inl e, st) => (Uncaught e, st)
  end.

End Gate.

(* ===================================================================== *)
(** * Reading the log of a run *)
(* ===================================================================== *)

Inductive Stage : Type := Lint | Typecheck | Test.

(** The stage a command line belongs to and the label under which its
    failure is reported; the lookup [git diff] belongs to no stage.  The
    package manager in first position is not inspected. *)
Definition classify (cmd : list str) : option (Stage * str) :=
  match cmd with
  | [_; b] =>
      if str_eqb b (u "test") then Some (Test, u "tests failed") else None
  | [a; b; c] =>
      if str_eqb b (u "run") && str_eqb c (u "lint")
      then Some (Lint, u "lint failed")
      else if str_eqb b (u "run") && str_eqb c (u "typecheck")
      then Some (Typecheck, u "typecheck failed")
      else if str_eqb a (u "npx") && str_eqb b (u "eslint") && str_eqb c (u ".")
      then Some (Lint, u "eslint failed")
      else if str_eqb a (u "npx") && str_eqb b (u "tsc") && str_eqb c (u "--noEmit")
      then Some (Typecheck, u "typecheck failed")
      else None
  | _ => None
  end.

Definition stage_of_cmd (cmd : list str) : option Stage :=
  option_map fst (classify cmd).

Definition failure_label (cmd : list str) : str :=
  match classify cmd with
  | Some (_, label) => label
  | None => []
  end.

Definition is_stage_call (c : Call) : bool :=
  match stage_of_cmd (c_cmd c) with Some _ => true | None => false end.

(** A stage failed: its child completed with a nonzero exit status. *)
Definition failed (c : Call) : bool :=
  is_stage_call c
  && match c_outcome c with
     | inr r => negb (returncode r =? 0)%Z
     | inl _ => false
     end.

(** A stage errored: its child timed out or could not be started. *)
Definition errored (c : Call) : bool :=
  is_stage_call c
  && match c_outcome c with
     | inr _ => false
     | inl _ => true
     end.


(** The excerpt of an error stream: its first 2000 characters once the
    surrounding whitespace is removed; nothing when it is blank. *)
Definition excerpt (err : str) : list str :=
  if truthy (strip err) then [slice_to 2000 (strip err)] else [].

(** What a call contributes to the diagnostics. *)
Definition report (c : Call) : list str :=
  if failed c then
    match c_outcome c with
    | inr r => failure_label (c_cmd c) :: excerpt (stderr r)
    | inl _ => []
    end
  else [].

(** The stages that were started, in the order of the log. *)
Definition stages_of (log : list Call) : list Stage :=
  flat_map (fun c => match stage_of_cmd (c_cmd c) with
                     | Some s => [s]
                     | None => []
                     end) log.

Definition stage_rank (s : Stage) : nat :=
  match s with Lint => 0 | Typecheck => 1 | Test => 2 end.

(** Lint before typecheck before test, each at most once. *)
Fixpoint in_stage_order (l : list Stage) : bool :=
  match l with
  | a :: (b :: _) as rest => (stage_rank a <? stage_rank b)%nat && in_stage_order rest
  | _ => true
  end.

Definition stage_ran (s : Stage) (log : list Call) : bool :=
  existsb (fun t => (stage_rank t =? stage_rank s)%nat) (stages_of log).

(** The error stream of a blocking run that reports [errors]. *)
Definition block_text (errors : list str) : list str :=
  [u "QUALITY GATE BLOCKED STOP:"]
  ++ List.map (fun e => u "- " ++ e) errors
  ++ [[10%N] ++ u "Fix the failures, then continue."].

Definition git_diff_cmd : list str := [u "git"; u "diff"; u "--name-only"].

(* ===================================================================== *)
(** * A scripted machine, to run the hook on concrete projects *)
(* ===================================================================== *)

Module Scripted.

(** A machine whose files and children are given by tables.  A path that
    is listed exists; its entry is the text [read_text] returns, or the
    exception it raises (a directory, an unreadable file).  A command that
    is not listed cannot be started.  Its error stream can always be
    written. *)
Record Machine : Type := mkMachine {
  m_env : list (str * str);
  m_cwd : exn + Path;
  m_files : list (Path * (exn + str));
  m_children : list (list str * (exn + CompletedProcess))
}.

Fixpoint cmd_eqb (a b : list str) : bool :=
  match a, b with
  | [], [] => true
  | x :: a', y :: b' => str_eqb x y && cmd_eqb a' b'
  | _, _ => false
  end.

Fixpoint lookup {A B} (eqb : A -> A -> bool) (key : A) (table : list (A * B))
  : option B :=
  match table with
  | [] => None
  | (k, v) :: rest => if eqb k key then Some v else lookup eqb key rest
  end.

(** A quoted JSON string. *)
Definition q (s : string) : str := [34%N] ++ u s ++ [34%N].

(** The manifests used in the examples:
    {"scripts":{"lint":"next lint","typecheck":"tsc --noEmit","test":"jest"}},
    {"scripts":{"lint":"next lint"}},
    {"scripts":{"typecheck":"tsc --noEmit","test":"jest"}} and
    {"name":"roomshare"}. *)
Definition manifest_all : str :=
  u "{" ++ q "scripts" ++ u ":{" ++ q "lint" ++ u ":" ++ q "next lint" ++ u ","
    ++ q "typecheck" ++ u ":" ++ q "tsc --noEmit" ++ u ","
    ++ q "test" ++ u ":" ++ q "jest" ++ u "}}".

Definition manifest_lint : str :=
  u "{" ++ q "scripts" ++ u ":{" ++ q "lint" ++ u ":" ++ q "next lint" ++ u "}}".

Definition manifest_no_lint : str :=
  u "{" ++ q "scripts" ++ u ":{" ++ q "typecheck" ++ u ":" ++ q "tsc --noEmit"
    ++ u "," ++ q "test" ++ u ":" ++ q "jest" ++ u "}}".

Definition manifest_bare : str :=
  u "{" ++ q "name" ++ u ":" ++ q "roomshare" ++ u "}".

(** [json.loads] on the documents above; any other text of the examples
    (they only use a truncated manifest) is not JSON. *)
Definition loads (text : str) : exn + json :=
  if str_eqb text manifest_all then
    inr (JDict [(u "scripts",
                 JDict [(u "lint", JStr (u "next lint"));
                        (u "typecheck", JStr (u "tsc --noEmit"));
                        (u "test", JStr (u "jest"))])])
  else if str_eqb text manifest_lint then
    inr (JDict [(u "scripts", JDict [(u "lint", JStr (u "next lint"))])])
  else if str_eqb text manifest_no_lint then
    inr (JDict [(u "scripts",
                 JDict [(u "typecheck", JStr (u "tsc --noEmit"));
                        (u "test", JStr (u "jest"))])])
  else if str_eqb text manifest_bare then
    inr (JDict [(u "name", JStr (u "roomshare"))])
  else inl ValueError.

#[export] Instance machine_host : Host Machine := {|
  environ_get := fun m name => lookup str_eqb name (m_env m);
  getcwd := m_cwd;
  path_exists := fun m p =>
    match lookup str_eqb p (m_files m) with Some _ => true | None => false end;
  read_text := fun m p =>
    match lookup str_eqb p (m_files m) with
    | Some content => content
    | None => inl OSError
    end;
  json_loads := loads;
  subprocess_run := fun m cmd _ _ =>
    match lookup cmd_eqb cmd (m_children m) with
    | Some outcome => (outcome, m)
    | None => (inl OSError, m)
    end;
  stderr_print := fun m _ => (None, m)
|}.

(** A project at /work with the given manifest, under git, where
    [git diff --name-only] prints [diff_out] and the other children are
    [children]. *)
Definition project (manifest : exn + str) (diff_out : str)
                   (children : list (list str * (exn + CompletedProcess)))
  : Machine :=
  {| m_env := [(u "CLAUDE_PROJECT_DIR", u "/work")];
     m_cwd := inr (u "/");
     m_files := [(u "/work/package.json", manifest);
                 (u "/work/.git", inl OSError)];
     m_children := (git_diff_cmd, inr (mkCompleted 0 diff_out [])) :: children |}.

Definition ok : exn + CompletedProcess := inr (mkCompleted 0 [] []).

Definition exits (code : Z) (err : str) : exn + CompletedProcess :=
  inr (mkCompleted code [] err).

End Scripted.

(** Projects the examples run the hook on. *)
Module Scenario.
Import Scripted.

Definition npm_lint : list str := [u "npm"; u "run"; u "lint"].
Definition npm_typecheck : list str := [u "npm"; u "run"; u "typecheck"].
Definition npm_test : list str := [u "npm"; u "test"].
Definition npx_tsc : list str := [u "npx"; u "tsc"; u "--noEmit"].

(** The lint script runs out of its 900 seconds. *)
Definition lint_times_out : Machine :=
  project (inr manifest_all) (u "src/App.tsx" ++ [10%N])
          [(npm_lint, inl TimeoutExpired)].


(** Lint and typecheck pass, the test runner cannot be started. *)
Definition tests_cannot_start : Machine :=
  project (inr manifest_all) (u "src/api/handler.ts" ++ [10%N])
          [(npm_lint, ok); (npm_typecheck, ok)].


(** No script is declared and no type-checker is installed: npx gives up
    with status 1. *)
Definition no_typechecker : Machine :=
  project (inr manifest_bare) (u "README.md" ++ [10%N])
          [(npx_tsc, exits 1 (u "npm error could not determine executable to run"))].

(** Only the README was edited; every script is declared and passes. *)
Definition readme_only : Machine :=
  project (inr manifest_all) (u "README.md" ++ [10%N])
          [(npm_lint, ok); (npm_typecheck, ok); (npm_test, ok)].

(** The lint script exits 1 and writes 3 problems. *)
Definition lint_three_problems : Machine :=
  project (inr manifest_all) (u "README.md" ++ [10%N])
          [(npm_lint, exits 1 (u "3 problems")); (npm_typecheck, ok)].

(** The lint script exits 1 with 3 problems, then the typecheck script
    runs out of its 900 seconds. *)
Definition lint_fails_then_timeout : Machine :=
  project (inr manifest_all) (u "README.md" ++ [10%N])
          [(npm_lint, exits 1 (u "3 problems"));
           (npm_typecheck, inl TimeoutExpired)].

(** A handler was edited and the tests fail. *)
Definition handler_changed : Machine :=
  project (inr manifest_all) (u "src/api/handler.ts" ++ [10%N])
          [(npm_lint, ok); (npm_typecheck, ok);
           (npm_test, exits 1 (u "1 test failed"))].

(** The manifest is cut off after its first character. *)
Definition broken_manifest : Machine :=
  project (inr (u "{")) (u "src/App.tsx" ++ [10%N]) [(npx_tsc, ok)].


End Scenario.

(** Further projects, for the facts beyond the claims. *)
Module MoreScenarios.
Import Scripted Scenario.

(** The lint script fails and writes 3000 characters on its error stream;
    typecheck fails too. *)
Definition verbose_lint : Machine :=
  project (inr manifest_all) (u "src/App.tsx" ++ [10%N])
          [(npm_lint, exits 1 (repeat 120%N 3000));
           (npm_typecheck, exits 2 (u "TS2322"));
           (npm_test, ok)].

(** A shelf holds one manifest text at /work/package.json and nothing
    else; it can start no child. *)
Record Shelf : Type := mkShelf { shelf_text : str }.

(** {"scripts":"lint-staged"} and {"scripts":["lint","test"]} *)
Definition manifest_string : str :=
  u "{" ++ q "scripts" ++ u ":" ++ q "lint-staged" ++ u "}".

Definition manifest_array : str :=
  u "{" ++ q "scripts" ++ u ":[" ++ q "lint" ++ u "," ++ q "test" ++ u "]}".

(** [json.loads] on these two documents. *)
Definition loads_loose (text : str) : exn + json :=
  if str_eqb text manifest_string then
    inr (JDict [(u "scripts", JStr (u "lint-staged"))])
  else if str_eqb text manifest_array then
    inr (JDict [(u "scripts", JList [JStr (u "lint"); JStr (u "test")])])
  else inl ValueError.

#[export] Instance shelf_host : Host Shelf := {|
  environ_get := fun _ _ => None;
  getcwd := fun _ => inr (u "/work");
  path_exists := fun _ p => str_eqb p (u "/work/package.json");
  read_text := fun sh p =>
    if str_eqb p (u "/work/package.json") then inr (shelf_text sh)
    else inl OSError;
  json_loads := loads_loose;
  subprocess_run := fun sh _ _ _ => (inl OSError, sh);
  stderr_print := fun sh _ => (None, sh)
|}.

(** The project directory is given with a slash at its end. *)
Definition slash_dir : Machine :=
  {| m_env := [(u "CLAUDE_PROJECT_DIR", u "/work/")];
     m_cwd := inr (u "/");
     m_files := [(u "/work/package.json", inr manifest_all);
                 (u "/work/.git", inl OSError)];
     m_children :=
       [(git_diff_cmd, inr (mkCompleted 0 (u "README.md" ++ [10%N]) []));
        (npm_lint, ok); (npm_typecheck, ok)] |}.

(** A machine whose error stream cannot be written: every print raises. *)
Record Muted : Type := mute { muted : Machine }.

#[export] Instance muted_host : Host Muted := {|
  environ_get := fun m => environ_get (muted m);
  getcwd := fun m => getcwd (muted m);
  path_exists := fun m => path_exists (muted m);
  read_text := fun m => read_text (muted m);
  json_loads := loads;
  subprocess_run := fun m cmd cwd timeout =>
    (fst (subprocess_run (muted m) cmd cwd timeout), m);
  stderr_print := fun m _ => (Some OSError, m)
|}.

End MoreScenarios.

(* ===================================================================== *)
(** * The plan of a stage *)
(* ===================================================================== *)

Section Plan.

Context {W : Type} {host : Host W}.

(** The command the lint stage starts in world [w], if any. *)
Definition lint_cmd (w : W) (project_dir : Path) (pm_cmd : str)
  : option (list str) :=
  if has_script w project_dir (u "lint")
  then Some [pm_cmd; u "run"; u "lint"]
  else if path_exists w (joinpath project_dir (u "node_modules/.bin/eslint"))
       then Some [u "npx"; u "eslint"; u "."]
       else None.

(** The command the typecheck stage starts in world [w]. *)
Definition typecheck_cmd (w : W) (project_dir : Path) (pm_cmd : str) : list str :=
  if has_script w project_dir (u "typecheck")
  then [pm_cmd; u "run"; u "typecheck"]
  else [u "npx"; u "tsc"; u "--noEmit"].

(** Whether a changed path lies in a core directory. *)
Definition touches_core (changed : list str) : bool :=
  existsb (fun p => startswith_any p TEST_RELEVANT_PREFIXES) changed.

(** The command the test stage starts in world [w], if any. *)
Definition test_cmd (w : W) (project_dir : Path) (pm_cmd : str)
                    (changed : list str) : option (list str) :=
  if touches_core changed && has_script w project_dir (u "test")
  then Some [pm_cmd; u "test"]
  else None.

(** Starting [cmd] as a stage with the errors collected so far: the call
    is logged; an exception of the child is raised, a completed child adds
    its report. *)
Definition stage_step (cmd : list str) (project_dir : Path) (errors : list str)
  : M (list str) :=
  fun st =>
    let '(outcome, w') := subprocess_run (world st) cmd project_dir 900 in
    let c := mkCall cmd project_dir 900 outcome in
    (match outcome with
     | inl e => inl e
     | inr _ => inr (errors ++ report c)
     end,
     {| world := w'; calls := calls st ++ [c]; printed := printed st |}).

Definition opt_step (cmd : option (list str)) (project_dir : Path)
                    (errors : list str) : M (list str) :=
  match cmd with
  | Some c => stage_step c project_dir errors
  | None => ret errors
  end.

(** Printing [lines] one after the other in world [w]: the exception that
    stopped it (if any), the world afterwards and the lines written. *)
Fixpoint emit (w : W) (lines : list str) : option exn * W * list str :=
  match lines with
  | [] => (None, w, [])
  | line :: rest =>
      match stderr_print w line with
      | (Some e, w') => (Some e, w', [])
      | (None, w') =>
          let '(stopped, w'', written) := emit w' rest in
          (stopped, w'', line :: written)
      end
  end.

(** The stages of [main] in a row, from the lint stage to the verdict
    (lines 63-109). *)
Definition pipeline (project_dir : Path) (pm_cmd : str) (changed : list str)
  : M Z :=
  bind (run_lint project_dir pm_cmd [])
    (fun errors =>
       bind (run_typecheck project_dir pm_cmd errors)
         (fun errors =>
            bind (run_tests project_dir pm_cmd changed errors)
              (fun errors => aggregate errors))).


(** The stage a command opens in the log, as a list. *)
Definition stage_list (cmd : option (list str)) : list Stage :=
  match cmd with
  | Some c => match stage_of_cmd c with Some s => [s] | None => [] end
  | None => []
  end.

(** The project directory [main] works on. *)
Definition project_dir_of (w : W) : exn + Path :=
  match getcwd w with
  | inl e => inl e
  | inr cwd =>
      inr (Path_of (match environ_get w (u "CLAUDE_PROJECT_DIR") with
                    | Some dir => dir
                    | None => cwd
                    end))
  end.

(** The world after a stage that starts [cmd], or nothing. *)
Definition after_stage (w : W) (cmd : option (list str)) (project_dir : Path)
  : W :=
  match cmd with
  | Some c => snd (subprocess_run w c project_dir 900)
  | None => w
  end.


End Plan.

Definition completed (c : Call) : bool :=
  match c_outcome c with inr _ => true | inl _ => false end.

(** The verdict the collected errors lead to. *)
Definition verdict (errors : list str) : Z :=
  match errors with [] => 0%Z | _ :: _ => 2%Z end.

Definition verdict_text (errors : list str) : list str :=
  match errors with [] => [] | _ :: _ => block_text errors end.

(** The characters the print calls put on the stream: each text and a
    line feed after it. *)
Definition stream_text (texts : list str) : str :=
  flat_map (fun text => text ++ [10%N]) texts.

(** The package managers detect_pm can answer. *)
Definition managers : list str := [u "pnpm"; u "yarn"; u "bun"; u "npm"].

(** The command lines of the stages, for the package manager [pm]. *)
Definition stage_cmds (pm : str) : list (list str) :=
  [[pm; u "run"; u "lint"];
   [u "npx"; u "eslint"; u "."];
   [pm; u "run"; u "typecheck"];
   [u "npx"; u "tsc"; u "--noEmit"];
   [pm; u "test"]].

(** How a run relates its log to its result and to what it printed: either
    the last call raised, which is then the result and nothing was printed,
    or every call completed and the reports of the log give the verdict, or
    every call completed and a print of the verdict's text raised, which is
    then the result, after only a part of the text was written. *)
Inductive GateRun : list Call -> exn + Z -> list str -> Prop :=
| gr_raise (pre : list Call) (c : Call) (e : exn) :
    forallb completed pre = true ->
    c_outcome c = inl e ->
    GateRun (pre ++ [c]) (inl e) []
| gr_done (cs : list Call) :
    forallb completed cs = true ->
    GateRun cs (inr (verdict (flat_map report cs)))
            (verdict_text (flat_map report cs))
| gr_print (cs : list Call) (e : exn) (written rest : list str) :
    forallb completed cs = true ->
    verdict_text (flat_map report cs) = written ++ rest ->
    rest <> [] ->
    GateRun cs (inl e) written.

(** What one stage adds to the log: nothing, or one call of that stage. *)
Definition Seg (s : Stage) (project_dir : Path) (seg : list Call) : Prop :=
  seg = []
  \/ exists c, seg = [c]
       /\ stage_of_cmd (c_cmd c) = Some s
       /\ c_timeout c = 900
       /\ c_cwd c = project_dir.

(** Stage calls of one run: in stage order, each in the project directory
    with the 900 second limit. *)
Definition StageCalls (project_dir : Path) (cs : list Call) : Prop :=
  in_stage_order (stages_of cs) = true
  /\ Forall (fun c => is_stage_call c = true
                     /\ c_timeout c = 900
                     /\ c_cwd c = project_dir) cs.

(** The log of a run: empty, or the lookup of the changed files followed
    by stage calls. *)
Definition LogShape (project_dir : Path) (log : list Call) : Prop :=
  log = []
  \/ exists outcome cs,
       log = mkCall git_diff_cmd project_dir 30 outcome :: cs
       /\ StageCalls project_dir cs.

(* ===================================================================== *)
(** * The command guard *)
(* ===================================================================== *)

Module Guard.

(** Modelled from the spec: the pattern language of the Command Guard's
    rules, whose script is not among the sources.  A rule's [pattern] is a
    case-insensitive text pattern; here it is a regular expression over
    code points. *)
Inductive pattern : Type :=
| PFail
| PEps
| PChar (c : char)
| PAny
| POneOf (cs : list char)
| PSeq (p q : pattern)
| PAlt (p q : pattern)
| PStar (p : pattern).

(** Modelled from the spec: case-insensitive comparison of the Command
    Guard, as folding the letters A-Z onto a-z. *)
Definition fold (c : char) : char :=
  if ((65 <=? c) && (c <=? 90))%N then (c + 32)%N else c.

Fixpoint nullable (p : pattern) : bool :=
  match p with
  | PFail => false
  | PEps => true
  | PChar _ => false
  | PAny => false
  | POneOf _ => false
  | PSeq p q => nullable p && nullable q
  | PAlt p q => nullable p || nullable q
  | PStar _ => true
  end.

(** The pattern that matches what is left once [x] has been read. *)
Fixpoint deriv (x : char) (p : pattern) : pattern :=
  match p with
  | PFail => PFail
  | PEps => PFail
  | PChar c => if (fold x =? fold c)%N then PEps else PFail
  | PAny => PEps
  | POneOf cs => if existsb (fun c => (fold x =? fold c)%N) cs then PEps else PFail
  | PSeq p q =>
      if nullable p
      then PAlt (PSeq (deriv x p) q) (deriv x q)
      else PSeq (deriv x p) q
  | PAlt p q => PAlt (deriv x p) (deriv x q)
  | PStar p => PSeq (deriv x p) (PStar p)
  end.

Fixpoint fullmatch (p : pattern) (s : str) : bool :=
  match s with
  | [] => nullable p
  | x :: s' => fullmatch (deriv x p) s'
  end.

(** Modelled from the spec: a pattern of the Command Guard matches
    anywhere in the command string. *)
Definition search (p : pattern) (s : str) : bool :=
  fullmatch (PSeq (PStar PAny) (PSeq p (PStar PAny))) s.

(** The literal text [s] as a pattern. *)
Fixpoint lit (s : str) : pattern :=
  match s with
  | [] => PEps
  | c :: s' => PSeq (PChar c) (lit s')
  end.

(** Modelled from the spec: a Rule of the Command Guard is a
    (pattern, message) pair. *)
Record Rule : Type := mkRule {
  rule_pattern : pattern;
  message : str
}.

(** Modelled from the spec: the rule table of the Command Guard, two
    ordered lists. *)
Record RuleTable : Type := mkTable {
  hard_block : list Rule;
  secret_access : list Rule
}.

(** Modelled from the spec: the Decision of the Command Guard. *)
Record Decision : Type := mkDecision {
  allowed : bool;
  diagnostics : list str
}.

(** Modelled from the spec: the Command Guard collects the messages of all
    rules whose pattern matches, hard-block rules first. *)
Definition violations (t : RuleTable) (cmd : str) : list str :=
  List.map message
    (List.filter (fun r => search (rule_pattern r) cmd)
                 (hard_block t ++ secret_access t)).

(** Modelled from the spec: an empty or whitespace-only command of the
    Command Guard. *)
Definition blank (cmd : str) : bool := forallb isspace cmd.

(** Modelled from the spec: the Command Guard on a command string; a blank
    command is allowed without evaluation, otherwise the action is blocked
    exactly when some rule matched. *)
Definition evaluate (t : RuleTable) (cmd : str) : Decision :=
  if blank cmd then {| allowed := true; diagnostics := [] |}
  else
    let found := violations t cmd in
    {| allowed := match found with [] => true | _ :: _ => false end;
       diagnostics := found |}.

(** A table in the manner of the spec's catalogue, for the examples: a
    privilege-escalation rule and a shutdown rule, and one secret-access
    rule. *)
Definition sample_table : RuleTable :=
  {| hard_block :=
       [ {| rule_pattern := PSeq (lit (u "sudo")) (POneOf [32%N; 9%N]);
            message := u "privilege escalation is not allowed" |};
         {| rule_pattern := PAlt (lit (u "shutdown")) (lit (u "reboot"));
            message := u "shutdown or reboot is not allowed" |} ];
     secret_access :=
       [ {| rule_pattern :=
              PSeq (lit (u "cat")) (PSeq (PStar PAny) (lit (u ".env")));
            message := u "reading an environment file is not allowed" |} ] |}.

End Guard.

(* ===================================================================== *)
(** * Facts about the stages *)
(* ===================================================================== *)

Section StageFacts.

Context {W : Type} {host : Host W}.

Lemma classify_lint_script (pm : str) :
  classify [pm; u "run"; u "lint"] = Some (Lint, u "lint failed").
Proof. reflexivity. Qed.

Lemma classify_eslint :
  classify [u "npx"; u "eslint"; u "."] = Some (Lint, u "eslint failed").
Proof. reflexivity. Qed.

Lemma classify_typecheck_script (pm : str) :
  classify [pm; u "run"; u "typecheck"] = Some (Typecheck, u "typecheck failed").
Proof. reflexivity. Qed.

Lemma classify_tsc :
  classify [u "npx"; u "tsc"; u "--noEmit"] = Some (Typecheck, u "typecheck failed").
Proof. reflexivity. Qed.

Lemma classify_test (pm : str) :
  classify [pm; u "test"] = Some (Test, u "tests failed").
Proof. reflexivity. Qed.

Lemma classify_git_diff : classify git_diff_cmd = None.
Proof. reflexivity. Qed.

(** The block that follows every stage call in [main] is [report]. *)
Lemma record_is_report (cmd : list str) (pd : Path) (t : nat) (s : Stage)
      (label : str) (r : CompletedProcess) (errors : list str) :
  classify cmd = Some (s, label) ->
  (if negb (returncode r =? 0)%Z
   then if truthy (strip (stderr r))
        then (errors ++ [label]) ++ [slice_to 2000 (strip (stderr r))]
        else errors ++ [label]
   else errors)
  = errors ++ report (mkCall cmd pd t (inr r)).
Proof.
  intros Hc. unfold report, failed, is_stage_call, stage_of_cmd, failure_label,
    excerpt. cbn [c_cmd c_outcome]. rewrite Hc. cbn [option_map andb].
  destruct (negb (returncode r =? 0)%Z).
  - destruct (truthy (strip (stderr r))).
    + rewrite <- app_assoc. reflexivity.
    + reflexivity.
  - rewrite app_nil_r. reflexivity.
Qed.

Lemma stage_step_block (cmd : list str) (pd : Path) (s : Stage) (label : str)
      (errors : list str) (st : @St W) :
  classify cmd = Some (s, label) ->
  bind (run cmd pd 900)
       (fun r =>
          if negb (returncode r =? 0)%Z
          then if truthy (strip (stderr r))
               then ret ((errors ++ [label]) ++ [slice_to 2000 (strip (stderr r))])
               else ret (errors ++ [label])
          else ret errors) st
  = stage_step cmd pd errors st.
Proof.
  intros Hc. unfold bind, run, stage_step.
  destruct (subprocess_run (world st) cmd pd 900) as [[e | r] w']; [reflexivity |].
  rewrite <- (record_is_report cmd pd 900 s label r errors Hc).
  unfold ret.
  destruct (negb (returncode r =? 0)%Z); [| reflexivity].
  destruct (truthy (strip (stderr r))); reflexivity.
Qed.

Lemma run_lint_plan (pd : Path) (pm : str) (errors : list str) (st : @St W) :
  run_lint pd pm errors st = opt_step (lint_cmd (world st) pd pm) pd errors st.
Proof.
  unfold run_lint, lint_cmd, opt_step.
  unfold bind at 1. unfold ask at 1.
  destruct (has_script (world st) pd (u "lint")).
  - apply (stage_step_block _ _ Lint (u "lint failed")). reflexivity.
  - unfold bind at 1. unfold ask at 1.
    destruct (path_exists (world st) (joinpath pd (u "node_modules/.bin/eslint"))).
    + apply (stage_step_block _ _ Lint (u "eslint failed")). reflexivity.
    + reflexivity.
Qed.

Lemma run_typecheck_plan (pd : Path) (pm : str) (errors : list str) (st : @St W) :
  run_typecheck pd pm errors st
  = stage_step (typecheck_cmd (world st) pd pm) pd errors st.
Proof.
  unfold run_typecheck, typecheck_cmd.
  unfold bind at 1. unfold ask at 1.
  destruct (has_script (world st) pd (u "typecheck")).
  - apply (stage_step_block _ _ Typecheck (u "typecheck failed")). reflexivity.
  - apply (stage_step_block _ _ Typecheck (u "typecheck failed")). reflexivity.
Qed.

Lemma run_tests_plan (pd : Path) (pm : str) (changed errors : list str) (st : @St W) :
  run_tests pd pm changed errors st
  = opt_step (test_cmd (world st) pd pm changed) pd errors st.
Proof.
  unfold run_tests, test_cmd, opt_step, touches_core.
  unfold bind at 1.
  destruct (existsb (fun p => startswith_any p TEST_RELEVANT_PREFIXES) changed);
    cbn [andb].
  - unfold ask at 1.
    destruct (has_script (world st) pd (u "test")).
    + apply (stage_step_block _ _ Test (u "tests failed")). reflexivity.
    + reflexivity.
  - reflexivity.
Qed.

Lemma emit_app (w : W) (a b : list str) :
  emit w (a ++ b)
  = let '(stopped, w1, written) := emit w a in
    match stopped with
    | Some e => (Some e, w1, written)
    | None =>
        let '(stopped', w2, written') := emit w1 b in
        (stopped', w2, written ++ written')
    end.
Proof.
  revert w. induction a as [| line a IH]; intros w.
  - cbn [app emit]. destruct (emit w b) as [[stopped w2] written]. reflexivity.
  - cbn [app emit]. destruct (stderr_print w line) as [[e |] w1]; [reflexivity |].
    rewrite IH. destruct (emit w1 a) as [[[e |] w2] written]; [reflexivity |].
    destruct (emit w2 b) as [[stopped w3] written']. reflexivity.
Qed.

(** What was written is a beginning of what was to be written, and all of
    it exactly when nothing stopped the printing. *)
Lemma emit_prefix (w : W) (lines : list str) stopped (w' : W) (written : list str) :
  emit w lines = (stopped, w', written) ->
  exists rest, lines = written ++ rest
               /\ match stopped with
                  | None => rest = []
                  | Some _ => rest <> []
                  end.
Proof.
  revert w stopped w' written.
  induction lines as [| line lines IH]; intros w stopped w' written.
  - cbn [emit]. intros [= <- _ <-]. exists []. auto.
  - cbn [emit]. destruct (stderr_print w line) as [[e |] w1].
    + intros [= <- _ <-]. exists (line :: lines). split; [reflexivity | discriminate].
    + destruct (emit w1 lines) as [[stopped' w2] written'] eqn:E.
      intros [= <- _ <-]. destruct (IH _ _ _ _ E) as (rest & -> & Hrest).
      exists rest. auto.
Qed.

Lemma eprint_each_eq (errors : list str) (st : @St W) :
  eprint_each errors st
  = let '(stopped, w', written) :=
      emit (world st) (List.map (fun e => u "- " ++ e) errors) in
    (match stopped with None => inr tt | Some e => inl e end,
     {| world := w'; calls := calls st; printed := printed st ++ written |}).
Proof.
  revert st. induction errors as [| e rest IH]; intros st.
  - cbn [eprint_each List.map emit]. unfold ret. rewrite app_nil_r.
    destruct st; reflexivity.
  - cbn [eprint_each List.map emit]. unfold bind, eprint.
    destruct (stderr_print (world st) (u "- " ++ e)) as [[x |] w1].
    + rewrite app_nil_r. reflexivity.
    + rewrite IH. cbn [world calls printed].
      destruct (emit w1 (List.map (fun e0 => u "- " ++ e0) rest))
        as [[stopped w2] written].
      rewrite <- app_assoc. reflexivity.
Qed.

Lemma aggregate_eq (errors : list str) (st : @St W) :
  aggregate errors st
  = let '(stopped, w', written) := emit (world st) (verdict_text errors) in
    (match stopped with None => inr (verdict errors) | Some e => inl e end,
     {| world := w'; calls := calls st; printed := printed st ++ written |}).
Proof.
  destruct errors as [| e rest].
  - cbn [aggregate verdict verdict_text emit]. unfold ret. rewrite app_nil_r.
    destruct st; reflexivity.
  - unfold aggregate, verdict, verdict_text, block_text.
    cbn [app emit].
    unfold bind at 1. unfold eprint at 1.
    destruct (stderr_print (world st) (u "QUALITY GATE BLOCKED STOP:"))
      as [[x |] w1]; [rewrite app_nil_r; reflexivity |].
    unfold bind at 1. rewrite eprint_each_eq. rewrite emit_app.
    cbn [world calls printed].
    destruct (emit w1 (List.map (fun e0 => u "- " ++ e0) (e :: rest)))
      as [[[x |] w2] written]; [rewrite <- app_assoc; reflexivity |].
    unfold bind, eprint, ret. cbn [world calls printed emit app].
    destruct (stderr_print w2 (10%N :: u "Fix the failures, then continue."))
      as [[x |] w3]; rewrite <- !app_assoc; cbn [app];
      rewrite ?app_nil_r; reflexivity.
Qed.

Lemma aggregate_calls (errors : list str) (st : @St W) res (st' : @St W) :
  aggregate errors st = (res, st') -> calls st' = calls st.
Proof.
  rewrite aggregate_eq.
  destruct (emit (world st) (verdict_text errors)) as [[stopped w'] written].
  intros [= _ <-]. reflexivity.
Qed.

Lemma aggregate_result (errors : list str) (st : @St W) res (st' : @St W) :
  aggregate errors st = (res, st') ->
  exists written rest,
    printed st' = printed st ++ written
    /\ verdict_text errors = written ++ rest
    /\ match res with
       | inr code => code = verdict errors /\ rest = []
       | inl _ => rest <> []
       end.
Proof.
  rewrite aggregate_eq.
  destruct (emit (world st) (verdict_text errors)) as [[stopped w'] written] eqn:E.
  destruct (emit_prefix _ _ _ _ _ E) as (rest & Hrest & Hstop).
  intros [= <- <-]. exists written, rest. cbn [printed].
  destruct stopped; auto.
Qed.

End StageFacts.

(* ===================================================================== *)
(** * Facts about a whole run *)
(* ===================================================================== *)

Section RunFacts.

Context {W : Type} {host : Host W}.

Lemma detect_pm_cases (w : W) (pd : Path) :
  detect_pm w pd = [u "pnpm"] \/ detect_pm w pd = [u "yarn"]
  \/ detect_pm w pd = [u "bun"] \/ detect_pm w pd = [u "npm"].
Proof.
  unfold detect_pm.
  destruct (path_exists w (joinpath pd (u "pnpm-lock.yaml"))); [auto |].
  destruct (path_exists w (joinpath pd (u "yarn.lock"))); [auto |].
  destruct (path_exists w (joinpath pd (u "bun.lockb"))); auto.
Qed.

Lemma detect_pm_head (w : W) (pd : Path) :
  exists m, detect_pm w pd = [m].
Proof.
  destruct (detect_pm_cases w pd) as [H | [H | [H | H]]]; rewrite H; eauto.
Qed.

Lemma lint_cmd_stage (w : W) (pd : Path) (pm : str) (cmd : list str) :
  lint_cmd w pd pm = Some cmd -> stage_of_cmd cmd = Some Lint.
Proof.
  unfold lint_cmd.
  destruct (has_script w pd (u "lint")).
  - intros [= <-]. reflexivity.
  - destruct (path_exists w (joinpath pd (u "node_modules/.bin/eslint")));
      [intros [= <-]; reflexivity | discriminate].
Qed.

Lemma typecheck_cmd_stage (w : W) (pd : Path) (pm : str) :
  stage_of_cmd (typecheck_cmd w pd pm) = Some Typecheck.
Proof.
  unfold typecheck_cmd. destruct (has_script w pd (u "typecheck")); reflexivity.
Qed.

Lemma test_cmd_stage (w : W) (pd : Path) (pm : str) (changed : list str)
      (cmd : list str) :
  test_cmd w pd pm changed = Some cmd -> stage_of_cmd cmd = Some Test.
Proof.
  unfold test_cmd.
  destruct (touches_core changed && has_script w pd (u "test"));
    [intros [= <-]; reflexivity | discriminate].
Qed.

Lemma report_not_stage (c : Call) :
  stage_of_cmd (c_cmd c) = None -> report c = [].
Proof.
  intros H. unfold report, failed, is_stage_call. rewrite H. reflexivity.
Qed.

Lemma report_nil_iff (c : Call) : report c = [] <-> failed c = false.
Proof.
  unfold report. destruct (failed c) eqn:Hf.
  - unfold failed in Hf. destruct (c_outcome c).
    + rewrite andb_false_r in Hf. discriminate.
    + split; discriminate.
  - split; reflexivity.
Qed.

Lemma main_boot (w : W) :
  main (boot w)
  = match project_dir_of w with
    | inl e => (inl e, boot w)
    | inr pd =>
        if negb (path_exists w (joinpath pd (u "package.json")))
        then (inr 0%Z, boot w)
        else if negb (path_exists w (joinpath pd (u ".git")))
        then (inr 0%Z, boot w)
        else
          let '(outcome, w1) := subprocess_run w git_diff_cmd pd 30 in
          let st1 := {| world := w1;
                        calls := [mkCall git_diff_cmd pd 30 outcome];
                        printed := [] |} in
          match outcome with
          | inl e => (inl e, st1)
          | inr diff =>
              match changed_files (stdout diff) with
              | [] => (inr 0%Z, st1)
              | p :: rest =>
                  pipeline pd (hd [] (detect_pm w1 pd)) (p :: rest) st1
              end
          end
    end.
Proof.
  unfold main, project_dir_of, get_project_dir, pipeline, bind, attempt, ask,
    ret, raise, run, boot, git_diff_cmd.
  cbn [world calls printed app].
  destruct (getcwd w) as [e | cwd]; [reflexivity |].
  cbn [world calls printed app].
  set (pd := Path_of match environ_get w (u "CLAUDE_PROJECT_DIR") with
                     | Some dir => dir
                     | None => cwd
                     end).
  destruct (path_exists w (joinpath pd (u "package.json"))); [| reflexivity].
  cbn [world calls printed app negb].
  destruct (path_exists w (joinpath pd (u ".git"))); [| reflexivity].
  cbn [world calls printed app negb].
  destruct (subprocess_run w [u "git"; u "diff"; u "--name-only"] pd 30)
    as [[e | diff] w1]; [reflexivity |].
  destruct (changed_files (stdout diff)) as [| p rest]; [reflexivity |].
  cbn [world calls printed app].
  destruct (detect_pm_head w1 pd) as [m Hm]. rewrite Hm.
  reflexivity.
Qed.

Lemma stage_step_summary (cmd : list str) (pd : Path) (s : Stage)
      (errors : list str) (st : @St W) res st' :
  stage_of_cmd cmd = Some s ->
  stage_step cmd pd errors st = (res, st') ->
  exists c,
    calls st' = calls st ++ [c] /\ printed st' = printed st
    /\ c_cmd c = cmd /\ c_timeout c = 900 /\ c_cwd c = pd
    /\ match res with
       | inr errors' => errors' = errors ++ report c /\ completed c = true
       | inl e => c_outcome c = inl e
       end.
Proof.
  intros Hs. unfold stage_step.
  destruct (subprocess_run (world st) cmd pd 900) as [[e | r] w'];
    intros [= <- <-]; eexists; cbn [calls printed];
    repeat split; reflexivity.
Qed.

Lemma opt_step_summary (cmd : option (list str)) (pd : Path) (s : Stage)
      (errors : list str) (st : @St W) res st' :
  (forall c, cmd = Some c -> stage_of_cmd c = Some s) ->
  opt_step cmd pd errors st = (res, st') ->
  exists seg,
    calls st' = calls st ++ seg /\ printed st' = printed st
    /\ Seg s pd seg
    /\ match res with
       | inr errors' =>
           errors' = errors ++ flat_map report seg
           /\ forallb completed seg = true
       | inl e => exists c, seg = [c] /\ c_outcome c = inl e
       end.
Proof.
  intros Hs. destruct cmd as [c |]; cbn [opt_step].
  - intros H.
    destruct (stage_step_summary c pd s errors st res st' (Hs c eq_refl) H)
      as (k & Hcalls & Hprinted & Hcmd & Ht & Hd & Hres).
    exists [k]. repeat split; try assumption.
    + right. exists k. rewrite Hcmd. auto.
    + destruct res as [e | errors'].
      * exists k. auto.
      * destruct Hres as [-> Hk]. cbn [flat_map forallb].
        rewrite app_nil_r, Hk. auto.
  - unfold ret. intros [= <- <-]. exists []. cbn [flat_map forallb].
    rewrite !app_nil_r. repeat split; auto. left; reflexivity.
Qed.

Lemma seg_stages (s : Stage) (pd : Path) (seg : list Call) :
  Seg s pd seg -> stages_of seg = [] \/ stages_of seg = [s].
Proof.
  intros [-> | (c & -> & Hs & _)]; [left; reflexivity |].
  right. unfold stages_of. cbn [flat_map]. rewrite Hs. reflexivity.
Qed.

Lemma seg_forall (s : Stage) (pd : Path) (seg : list Call) :
  Seg s pd seg ->
  Forall (fun c => is_stage_call c = true /\ c_timeout c = 900 /\ c_cwd c = pd) seg.
Proof.
  intros [-> | (c & -> & Hs & Ht & Hd)]; [constructor |].
  constructor; [| constructor]. unfold is_stage_call. rewrite Hs. auto.
Qed.

Lemma stages_of_app (a b : list Call) :
  stages_of (a ++ b) = stages_of a ++ stages_of b.
Proof. unfold stages_of. apply flat_map_app. Qed.

Lemma stage_calls_intro (pd : Path) (l t x : list Call) :
  Seg Lint pd l -> Seg Typecheck pd t -> Seg Test pd x ->
  StageCalls pd (l ++ t ++ x).
Proof.
  intros Hl Ht Hx. split.
  - rewrite !stages_of_app.
    destruct (seg_stages _ _ _ Hl) as [-> | ->];
      destruct (seg_stages _ _ _ Ht) as [-> | ->];
      destruct (seg_stages _ _ _ Hx) as [-> | ->]; reflexivity.
  - repeat (apply Forall_app; split); eauto using seg_forall.
Qed.

(** The stages from lint to the verdict: what they add to the log and to
    the error stream, and how the result follows from the log. *)
Lemma pipeline_summary (pd : Path) (pm : str) (changed : list str)
      (st : @St W) res st' :
  pipeline pd pm changed st = (res, st') ->
  exists cs out,
    calls st' = calls st ++ cs /\ printed st' = printed st ++ out
    /\ StageCalls pd cs /\ GateRun cs res out.
Proof.
  unfold pipeline. unfold bind at 1.
  rewrite run_lint_plan.
  destruct (opt_step (lint_cmd (world st) pd pm) pd [] st) as [r1 st1] eqn:E1.
  destruct (opt_step_summary _ pd Lint _ _ _ _ (lint_cmd_stage _ pd pm) E1)
    as (l & Hc1 & Hp1 & Hl & Hr1).
  destruct r1 as [e | errors1].
  { intros [= <- <-]. destruct Hr1 as (c & -> & Hc).
    exists [c], []. rewrite app_nil_r. split; [auto | split; [auto | split]].
    - apply (stage_calls_intro pd [c] [] []); auto; left; reflexivity.
    - apply (gr_raise [] c e); auto. }
  destruct Hr1 as [-> Hl_ok]. cbn [app].
  unfold bind at 1. rewrite run_typecheck_plan.
  destruct (stage_step (typecheck_cmd (world st1) pd pm) pd (flat_map report l) st1)
    as [r2 st2] eqn:E2.
  destruct (stage_step_summary _ pd Typecheck _ _ _ _
              (typecheck_cmd_stage _ pd pm) E2)
    as (t & Hc2 & Hp2 & Hcmd2 & Ht2 & Hd2 & Hr2).
  assert (Hseg2 : Seg Typecheck pd [t]).
  { right. exists t. rewrite Hcmd2. auto using typecheck_cmd_stage. }
  destruct r2 as [e | errors2].
  { intros [= <- <-]. exists (l ++ [t]), [].
    rewrite app_nil_r, Hc2, Hc1, Hp2, Hp1, <- app_assoc. split; [auto | split; [auto | split]].
    - rewrite <- (app_nil_r [t]). apply stage_calls_intro; auto. left; reflexivity.
    - apply gr_raise; auto. }
  destruct Hr2 as [-> Ht_ok].
  unfold bind at 1. rewrite run_tests_plan.
  destruct (opt_step (test_cmd (world st2) pd pm changed) pd
              (flat_map report l ++ report t) st2) as [r3 st3] eqn:E3.
  destruct (opt_step_summary _ pd Test _ _ _ _ (test_cmd_stage _ pd pm changed) E3)
    as (x & Hc3 & Hp3 & Hx & Hr3).
  destruct r3 as [e | errors3].
  { intros [= <- <-]. destruct Hr3 as (c & -> & Hc).
    exists (l ++ [t] ++ [c]), [].
    rewrite app_nil_r, Hc3, Hc2, Hc1, Hp3, Hp2, Hp1, <- !app_assoc.
    split; [auto | split; [auto | split]].
    - apply stage_calls_intro; auto.
    - replace (l ++ [t] ++ [c]) with ((l ++ [t]) ++ [c])
        by (rewrite <- app_assoc; reflexivity).
      apply gr_raise; auto.
      rewrite forallb_app, Hl_ok. cbn [forallb]. rewrite Ht_ok. reflexivity. }
  destruct Hr3 as [-> Hx_ok].
  assert (Herr : (flat_map report l ++ report t) ++ flat_map report x
                 = flat_map report (l ++ [t] ++ x)).
  { rewrite !flat_map_app. cbn [flat_map]. rewrite app_nil_r, <- app_assoc.
    reflexivity. }
  rewrite Herr. intros Hagg.
  pose proof (aggregate_calls _ _ _ _ Hagg) as Hc4.
  destruct (aggregate_result _ _ _ _ Hagg) as (written & rest & Hp4 & Htext & Hres).
  assert (Hdone : forallb completed (l ++ [t] ++ x) = true).
  { rewrite !forallb_app, Hl_ok, Hx_ok. cbn [forallb]. rewrite Ht_ok. reflexivity. }
  exists (l ++ [t] ++ x), written.
  rewrite Hc4, Hp4, Hc3, Hc2, Hc1, Hp3, Hp2, Hp1, <- !app_assoc.
  split; [auto | split; [auto | split]].
  - apply stage_calls_intro; auto.
  - destruct res as [e | code].
    + apply (gr_print _ e written rest); assumption.
    + destruct Hres as [-> ->]. rewrite app_nil_r in Htext. rewrite <- Htext.
      apply gr_done. exact Hdone.
Qed.

Lemma gate_run_cons (c0 : Call) (cs : list Call) res (out : list str) :
  completed c0 = true -> report c0 = [] ->
  GateRun cs res out -> GateRun (c0 :: cs) res out.
Proof.
  intros H0 Hr H.
  assert (Hsame : flat_map report (c0 :: cs) = flat_map report cs).
  { cbn [flat_map]. rewrite Hr. reflexivity. }
  destruct H as [pre c e Hpre Hc | cs Hcs | cs e written rest Hcs Htext Hrest].
  - apply (gr_raise (c0 :: pre) c e); [| assumption].
    cbn [forallb]. rewrite H0, Hpre. reflexivity.
  - rewrite <- Hsame.
    apply gr_done. cbn [forallb]. rewrite H0, Hcs. reflexivity.
  - apply (gr_print _ e written rest); [| rewrite Hsame; exact Htext | exact Hrest].
    cbn [forallb]. rewrite H0, Hcs. reflexivity.
Qed.

(** Every run of [main]: the shape of its log, and how result and error
    stream follow from it. *)
Lemma main_summary (w : W) res (st : @St W) :
  main (boot w) = (res, st) ->
  match project_dir_of w with
  | inl e => res = inl e /\ calls st = [] /\ printed st = []
  | inr pd => LogShape pd (calls st) /\ GateRun (calls st) res (printed st)
  end.
Proof.
  rewrite main_boot.
  destruct (project_dir_of w) as [e | pd].
  { intros [= <- <-]. auto. }
  assert (Hquiet : forall (x : W), LogShape pd (calls (boot x))
                     /\ GateRun (calls (boot x)) (inr 0%Z) (printed (boot x))).
  { intros x. split; [left; reflexivity | apply (gr_done [])]. reflexivity. }
  destruct (negb (path_exists w (joinpath pd (u "package.json")))).
  { intros [= <- <-]. apply Hquiet. }
  destruct (negb (path_exists w (joinpath pd (u ".git")))).
  { intros [= <- <-]. apply Hquiet. }
  destruct (subprocess_run w git_diff_cmd pd 30) as [[e | diff] w1].
  { intros [= <- <-]. cbn [calls printed]. split.
    - right. exists (inl e), []. split; [reflexivity |].
      split; [reflexivity | constructor].
    - apply (gr_raise [] _ e); reflexivity. }
  set (c0 := mkCall git_diff_cmd pd 30 (inr diff)).
  assert (Hshape0 : LogShape pd [c0]).
  { right. exists (inr diff), []. split; [reflexivity |].
    split; [reflexivity | constructor]. }
  destruct (changed_files (stdout diff)) as [| p rest].
  { intros [= <- <-]. cbn [calls printed]. split; [exact Hshape0 |].
    apply (gr_done [c0]). reflexivity. }
  intros H.
  destruct (pipeline_summary _ _ _ _ _ _ H) as (cs & out & Hc & Hp & Hs & Hg).
  cbn [calls printed app] in Hc, Hp. rewrite Hc, Hp. split.
  - right. exists (inr diff), cs. auto.
  - apply gate_run_cons; [reflexivity | reflexivity | assumption].
Qed.

Lemma gate_run_raise (log : list Call) res (out : list str) (c : Call) (e : exn) :
  GateRun log res out -> In c log -> c_outcome c = inl e ->
  res = inl e /\ out = [].
Proof.
  intros H Hin Hc.
  destruct H as [pre k e' Hpre Hk | cs Hcs | cs e' written rest Hcs _ _].
  - apply in_app_or in Hin. destruct Hin as [Hin | [<- | []]].
    + rewrite forallb_forall in Hpre. specialize (Hpre c Hin).
      unfold completed in Hpre. rewrite Hc in Hpre. discriminate.
    + rewrite Hc in Hk. injection Hk as <-. auto.
  - rewrite forallb_forall in Hcs. specialize (Hcs c Hin).
    unfold completed in Hcs. rewrite Hc in Hcs. discriminate.
  - rewrite forallb_forall in Hcs. specialize (Hcs c Hin).
    unfold completed in Hcs. rewrite Hc in Hcs. discriminate.
Qed.

Lemma gate_run_returns (log : list Call) (code : Z) (out : list str) :
  GateRun log (inr code) out ->
  forallb completed log = true
  /\ code = verdict (flat_map report log)
  /\ out = verdict_text (flat_map report log).
Proof.
  intros H. inversion H; subst. auto.
Qed.

Lemma gate_run_raised (log : list Call) (e : exn) (out : list str) :
  GateRun log (inl e) out ->
  (out = [] /\ exists pre c, log = pre ++ [c] /\ c_outcome c = inl e
                              /\ forallb completed pre = true)
  \/ (forallb completed log = true
      /\ exists rest, verdict_text (flat_map report log) = out ++ rest
                      /\ rest <> []).
Proof.
  intros H. inversion H; subst.
  - left. split; [reflexivity |]. exists pre, c. auto.
  - right. split; [assumption |]. exists rest. auto.
Qed.

Lemma reports_nil_iff (log : list Call) :
  flat_map report log = [] <-> existsb failed log = false.
Proof.
  induction log as [| c log IH]; cbn [flat_map existsb]; [tauto |].
  split.
  - intros H. apply app_eq_nil in H. destruct H as [Hc Hl].
    apply report_nil_iff in Hc. rewrite Hc. apply IH. assumption.
  - intros H. apply orb_false_iff in H. destruct H as [Hc Hl].
    apply report_nil_iff in Hc. rewrite Hc. apply IH. assumption.
Qed.

Lemma verdict_block_iff (log : list Call) :
  verdict (flat_map report log) = block <-> existsb failed log = true.
Proof.
  destruct (existsb failed log) eqn:E.
  - destruct (flat_map report log) eqn:Er.
    + apply reports_nil_iff in Er. congruence.
    + split; reflexivity.
  - apply reports_nil_iff in E. rewrite E. split; discriminate.
Qed.

Lemma verdict_allow_iff (log : list Call) :
  verdict (flat_map report log) = allow <-> existsb failed log = false.
Proof.
  destruct (existsb failed log) eqn:E.
  - destruct (flat_map report log) eqn:Er.
    + apply reports_nil_iff in Er. congruence.
    + split; discriminate.
  - apply reports_nil_iff in E. rewrite E. split; reflexivity.
Qed.

Lemma log_shape_stage_order (pd : Path) (log : list Call) :
  LogShape pd log -> in_stage_order (stages_of log) = true.
Proof.
  intros [-> | (o & cs & -> & Hord & _)]; [reflexivity | exact Hord].
Qed.

Lemma log_shape_stage_call (pd : Path) (log : list Call) (c : Call) :
  LogShape pd log -> In c log -> is_stage_call c = true ->
  c_timeout c = 900 /\ c_cwd c = pd.
Proof.
  intros [-> | (o & cs & -> & _ & Hall)] Hin Hst; [destruct Hin |].
  destruct Hin as [<- | Hin]; [discriminate |].
  rewrite Forall_forall in Hall. destruct (Hall c Hin) as (_ & Ht & Hd). auto.
Qed.

Lemma hook_of_main (w : W) res (st : @St W) :
  main (boot w) = (res, st) ->
  hook w = (match res with inr code => Exit code | inl e => Uncaught e end, st).
Proof.
  intros H. unfold hook. rewrite H. destruct res; reflexivity.
Qed.

Lemma stages_of_snoc (log : list Call) (c : Call) :
  stages_of (log ++ [c]) = stages_of log ++ stage_list (Some (c_cmd c)).
Proof.
  rewrite stages_of_app. unfold stages_of at 2. cbn [flat_map stage_list].
  rewrite app_nil_r. reflexivity.
Qed.

(** What a stage adds to the log and the world it leaves. *)
Lemma opt_step_full (cmd : option (list str)) (pd : Path) (errors : list str)
      (st : @St W) res (st' : @St W) :
  opt_step cmd pd errors st = (res, st') ->
  world st' = after_stage (world st) cmd pd
  /\ exists seg,
       calls st' = calls st ++ seg
       /\ stages_of seg = stage_list cmd
       /\ match res with
          | inr _ => forallb completed seg = true
          | inl e => exists c, seg = [c] /\ cmd = Some (c_cmd c)
                               /\ c_outcome c = inl e
          end.
Proof.
  destruct cmd as [c |]; cbn [opt_step after_stage].
  - unfold stage_step.
    destruct (subprocess_run (world st) c pd 900) as [o w'] eqn:E.
    intros [= <- <-]. cbn [world calls snd]. split; [reflexivity |].
    eexists. split; [reflexivity |]. split.
    + rewrite <- (app_nil_l [_]). rewrite stages_of_snoc. reflexivity.
    + destruct o as [e | r]; [| reflexivity].
      eexists. split; [reflexivity |]. split; reflexivity.
  - unfold ret. intros [= <- <-]. split; [reflexivity |].
    exists []. rewrite app_nil_r. repeat split.
Qed.

Lemma opt_step_trace (cmd : option (list str)) (pd : Path) (errors : list str)
      (st : @St W) (errors' : list str) (st' : @St W) :
  opt_step cmd pd errors st = (inr errors', st') ->
  stages_of (calls st') = stages_of (calls st) ++ stage_list cmd.
Proof.
  intros H. destruct (opt_step_full _ _ _ _ _ _ H) as (_ & seg & -> & Hs & _).
  rewrite stages_of_app, Hs. reflexivity.
Qed.





Lemma has_script_needs_manifest (w : W) (pd : Path) (script : str) :
  path_exists w (joinpath pd (u "package.json")) = false ->
  has_script w pd script = false.
Proof. intros H. unfold has_script. rewrite H. reflexivity. Qed.

End RunFacts.

(* ===================================================================== *)
(** * The claims about the quality gate *)
(* ===================================================================== *)

Section GateClaims.

Context {W : Type} {host : Host W}.

Lemma block_text_in (errors : list str) (e : str) :
  In e errors -> In (u "- " ++ e) (block_text errors).
Proof.
  intros H. unfold block_text. apply in_or_app. right.
  apply in_or_app. left. apply (in_map (fun x => u "- " ++ x)). exact H.
Qed.

Lemma verdict_text_in (errors : list str) (e : str) :
  In e errors -> In (u "- " ++ e) (verdict_text errors).
Proof.
  destruct errors as [| x rest]; [intros [] |].
  apply block_text_in.
Qed.

Lemma failed_label_reported (log : list Call) (c : Call) :
  In c log -> failed c = true -> In (failure_label (c_cmd c)) (flat_map report log).
Proof.
  intros Hin Hf. apply in_flat_map. exists c. split; [assumption |].
  unfold report. rewrite Hf. unfold failed in Hf.
  destruct (c_outcome c); [rewrite andb_false_r in Hf; discriminate |].
  left. reflexivity.
Qed.

Lemma existsb_failed_intro (log : list Call) (c : Call) :
  In c log -> failed c = true -> existsb failed log = true.
Proof. intros Hin Hf. apply existsb_exists. exists c. auto. Qed.

Lemma log_has_project_dir (w : W) res (st : @St W) (c : Call) :
  main (boot w) = (res, st) -> In c (calls st) ->
  exists pd, project_dir_of w = inr pd
             /\ LogShape pd (calls st) /\ GateRun (calls st) res (printed st).
Proof.
  intros H Hin. pose proof (main_summary w res st H) as Hs.
  destruct (project_dir_of w) as [e | pd].
  - destruct Hs as (_ & Hnil & _). rewrite Hnil in Hin. destruct Hin.
  - exists pd. tauto.
Qed.

(** C1, as the code has it: every stage child is given 900 seconds.  When
    it exceeds them or cannot be started, [subprocess.run] raises and [main]
    does not catch the exception: nothing is recorded or printed, no
    Decision is returned and the hook ends with the unhandled exception.
    Only a child that completes with a nonzero status is recorded, and a run
    that then returns blocks and names the stage. *)
Theorem stage_error_is_unhandled (w : W) res (st : @St W) (c : Call) :
  main (boot w) = (res, st) ->
  In c (calls st) ->
  is_stage_call c = true ->
  c_timeout c = 900
  /\ (forall e, c_outcome c = inl e ->
        res = inl e /\ printed st = [] /\ fst (hook w) = Uncaught e)
  /\ (failed c = true ->
      forall code, res = inr code ->
        code = block /\ In (u "- " ++ failure_label (c_cmd c)) (printed st)).
Proof.
  intros H Hin Hst.
  destruct (log_has_project_dir w res st c H Hin) as (pd & _ & Hshape & Hrun).
  split; [apply (log_shape_stage_call pd (calls st) c); assumption |].
  split.
  - intros e He.
    destruct (gate_run_raise _ _ _ c e Hrun Hin He) as [-> Hout].
    rewrite (hook_of_main w _ _ H). auto.
  - intros Hf code ->.
    destruct (gate_run_returns _ _ _ Hrun) as (_ & -> & ->). split.
    + apply verdict_block_iff. apply (existsb_failed_intro _ c); assumption.
    + apply verdict_text_in. apply failed_label_reported; assumption.
Qed.


(** C5, as the code has it: when [main] returns, the exit status is 2 if
    and only if a stage child completed with a nonzero status and 0
    otherwise, and no stage errored; a stage that errored (timeout, child
    that cannot be started) leaves no Decision, the exception ends the
    hook. *)
Theorem verdict_iff_stage_failed (w : W) res (st : @St W) :
  main (boot w) = (res, st) ->
  (forall code, res = inr code ->
     fst (hook w) = Exit code
     /\ (code = block <-> existsb failed (calls st) = true)
     /\ (code = allow <-> existsb failed (calls st) = false)
     /\ existsb errored (calls st) = false)
  /\ (existsb errored (calls st) = true ->
      exists e, res = inl e /\ fst (hook w) = Uncaught e).
Proof.
  intros H. split.
  - intros code ->. rewrite (hook_of_main w _ _ H). split; [reflexivity |].
    pose proof (main_summary w _ st H) as Hs.
    assert (Hrun : GateRun (calls st) (inr code) (printed st)).
    { destruct (project_dir_of w); [destruct Hs; discriminate | tauto]. }
    destruct (gate_run_returns _ _ _ Hrun) as (Hall & -> & _).
    split; [apply verdict_block_iff |]. split; [apply verdict_allow_iff |].
    apply not_true_is_false. intros Hex.
    apply existsb_exists in Hex. destruct Hex as (c & Hin & Herr).
    rewrite forallb_forall in Hall. specialize (Hall c Hin).
    unfold errored in Herr. unfold completed in Hall.
    destruct (c_outcome c); [discriminate |].
    rewrite andb_false_r in Herr. discriminate.
  - intros Hex. apply existsb_exists in Hex. destruct Hex as (c & Hin & Herr).
    destruct (log_has_project_dir w res st c H Hin) as (pd & _ & _ & Hrun).
    unfold errored in Herr.
    destruct (c_outcome c) as [e | r] eqn:Hc;
      [| rewrite andb_false_r in Herr; discriminate].
    destruct (gate_run_raise _ _ _ c e Hrun Hin Hc) as [-> _].
    exists e. rewrite (hook_of_main w _ _ H). auto.
Qed.

Lemma excerpt_bounded (err x : str) :
  In x (excerpt err) -> x = firstn 2000 (strip err) /\ List.length x <= 2000.
Proof.
  unfold excerpt, slice_to.
  destruct (truthy (strip err)); [| intros []].
  intros [<- | []]. split; [reflexivity | apply firstn_le_length].
Qed.

(** C6, as the code has it: when [main] returns, the stages in its log are
    in the order lint,
    typecheck, test.  If a stage failed, the verdict is block and the error
    stream is the header, then for each failed stage in that order its label
    and (when its error stream is not blank) the first 2000 characters of
    the stripped stream, then the instruction to fix and continue; a lint
    script that exits 1 with the error stream "3 problems" gives the lines
    "- lint failed" and "- 3 problems".  If no stage failed, the verdict is
    allow and nothing is printed. *)
Theorem diagnostics_of_failures (w : W) (code : Z) (st : @St W) :
  main (boot w) = (inr code, st) ->
  in_stage_order (stages_of (calls st)) = true
  /\ (existsb failed (calls st) = true ->
        code = block
        /\ printed st
           = [u "QUALITY GATE BLOCKED STOP:"]
             ++ List.map (fun e => u "- " ++ e) (flat_map report (calls st))
             ++ [[10%N] ++ u "Fix the failures, then continue."])
  /\ (existsb failed (calls st) = false -> code = allow /\ printed st = [])
  /\ (forall c r, In c (calls st) -> c_outcome c = inr r -> failed c = true ->
        report c = failure_label (c_cmd c) :: excerpt (stderr r)
        /\ forall x, In x (excerpt (stderr r)) ->
             x = firstn 2000 (strip (stderr r)) /\ List.length x <= 2000)
  /\ (forall c pm r, In c (calls st) -> c_cmd c = [pm; u "run"; u "lint"] ->
        c_outcome c = inr r -> returncode r = 1%Z -> stderr r = u "3 problems" ->
        code = block
        /\ In (u "- lint failed") (printed st)
        /\ In (u "- 3 problems") (printed st)).
Proof.
  intros H.
  pose proof (main_summary w _ st H) as Hs.
  assert (Hboth : exists pd, LogShape pd (calls st)
                             /\ GateRun (calls st) (inr code) (printed st)).
  { destruct (project_dir_of w) as [e | pd];
      [destruct Hs; discriminate | exists pd; exact Hs]. }
  destruct Hboth as (pd & Hshape & Hrun).
  destruct (gate_run_returns _ _ _ Hrun) as (Hall & Hcode & Hout).
  split; [apply (log_shape_stage_order pd); assumption |].
  split.
  { intros Hf. split; [rewrite Hcode; apply verdict_block_iff; assumption |].
    rewrite Hout. destruct (flat_map report (calls st)) eqn:Er; [| reflexivity].
    apply reports_nil_iff in Er. congruence. }
  split.
  { intros Hf. apply reports_nil_iff in Hf. rewrite Hcode, Hout, Hf. auto. }
  split.
  { intros c r Hin Hc Hf. split.
    - unfold report. rewrite Hf, Hc. reflexivity.
    - apply excerpt_bounded. }
  intros c pm r Hin Hcmd Hc Hrc Herr.
  assert (Hf : failed c = true).
  { unfold failed, is_stage_call. rewrite Hcmd, Hc, Hrc. reflexivity. }
  assert (Hrep : report c = [u "lint failed"; u "3 problems"]).
  { unfold report. rewrite Hf, Hc, Hcmd, Herr. reflexivity. }
  assert (Hsub : forall x, In x (report c) -> In (u "- " ++ x) (printed st)).
  { intros x Hx. rewrite Hout. apply verdict_text_in.
    apply in_flat_map. exists c. auto. }
  split; [rewrite Hcode; apply verdict_block_iff;
          apply (existsb_failed_intro _ c); assumption |].
  split; apply Hsub; rewrite Hrep; cbn [In]; auto.
Qed.



Lemma stage_ran_app (s : Stage) (a b : list Call) :
  stage_ran s (a ++ b) = stage_ran s a || stage_ran s b.
Proof. unfold stage_ran. rewrite stages_of_app. apply existsb_app. Qed.


(** C3, as the code has it: the lint stage is skipped, with nothing started
    and nothing recorded, when no lint script is declared and
    node_modules/.bin/eslint is absent; the test stage is skipped when no
    test script is declared.  The typecheck stage is never skipped: without
    a typecheck script it starts [npx tsc --noEmit] whether or not a
    type-checker is installed, and a nonzero status of that child is recorded
    as "typecheck failed". *)
Theorem tooling_absence (pd : Path) (pm : str) (changed errors : list str)
        (st : @St W) :
  (has_script (world st) pd (u "lint") = false ->
   path_exists (world st) (joinpath pd (u "node_modules/.bin/eslint")) = false ->
   run_lint pd pm errors st = (inr errors, st))
  /\ (has_script (world st) pd (u "test") = false ->
      run_tests pd pm changed errors st = (inr errors, st))
  /\ (has_script (world st) pd (u "typecheck") = false ->
      let tsc := [u "npx"; u "tsc"; u "--noEmit"] in
      let '(outcome, w') := subprocess_run (world st) tsc pd 900 in
      snd (run_typecheck pd pm errors st)
      = {| world := w';
           calls := calls st ++ [mkCall tsc pd 900 outcome];
           printed := printed st |}
      /\ fst (run_typecheck pd pm errors st)
         = match outcome with
           | inl e => inl e
           | inr r =>
               inr (if negb (returncode r =? 0)%Z
                    then errors ++ u "typecheck failed" :: excerpt (stderr r)
                    else errors)
           end).
Proof.
  split; [| split].
  - intros Hl He. rewrite run_lint_plan. unfold lint_cmd. rewrite Hl, He.
    reflexivity.
  - intros Ht. rewrite run_tests_plan. unfold test_cmd. rewrite Ht, andb_false_r.
    reflexivity.
  - intros Ht. cbv zeta. rewrite run_typecheck_plan. unfold typecheck_cmd.
    rewrite Ht. unfold stage_step.
    destruct (subprocess_run (world st) [u "npx"; u "tsc"; u "--noEmit"] pd 900)
      as [[e | r] w']; cbn [fst snd]; [auto |].
    split; [reflexivity |].
    unfold report, failed, is_stage_call. cbn [c_cmd c_outcome].
    change (stage_of_cmd [u "npx"; u "tsc"; u "--noEmit"]) with (Some Typecheck).
    change (failure_label [u "npx"; u "tsc"; u "--noEmit"])
      with (u "typecheck failed").
    cbn [andb].
    destruct (negb (returncode r =? 0)%Z); [reflexivity |].
    rewrite app_nil_r. reflexivity.
Qed.


End GateClaims.

(* ===================================================================== *)
(** * The claim about the command guard *)
(* ===================================================================== *)

Module GuardFacts.
Import Guard.

Lemma isspace_no_letter (c : char) :
  (65 <= c)%N -> (c <= 122)%N -> isspace c = false.
Proof.
  intros Hlo Hhi. unfold isspace.
  replace (c <=? 13)%N with false by (symmetry; apply N.leb_gt; lia).
  replace (c <=? 32)%N with false by (symmetry; apply N.leb_gt; lia).
  replace (8192 <=? c)%N with false by (symmetry; apply N.leb_gt; lia).
  replace (c =? 133)%N with false by (symmetry; apply N.eqb_neq; lia).
  replace (c =? 160)%N with false by (symmetry; apply N.eqb_neq; lia).
  replace (c =? 5760)%N with false by (symmetry; apply N.eqb_neq; lia).
  replace (c =? 8232)%N with false by (symmetry; apply N.eqb_neq; lia).
  replace (c =? 8233)%N with false by (symmetry; apply N.eqb_neq; lia).
  replace (c =? 8239)%N with false by (symmetry; apply N.eqb_neq; lia).
  replace (c =? 8287)%N with false by (symmetry; apply N.eqb_neq; lia).
  replace (c =? 12288)%N with false by (symmetry; apply N.eqb_neq; lia).
  rewrite !andb_false_r. reflexivity.
Qed.

Lemma isspace_fold (c : char) : isspace (fold c) = isspace c.
Proof.
  unfold fold. destruct ((65 <=? c) && (c <=? 90))%N eqn:E; [| reflexivity].
  apply andb_true_iff in E. destruct E as [Hlo Hhi].
  apply N.leb_le in Hlo. apply N.leb_le in Hhi.
  rewrite !isspace_no_letter by lia. reflexivity.
Qed.

Lemma blank_fold (a b : str) :
  List.map fold a = List.map fold b -> blank a = blank b.
Proof.
  revert b. induction a as [| x a IH]; intros [| y b] H; try discriminate.
  - reflexivity.
  - injection H as Hxy Hab. unfold blank in *. cbn [forallb].
    rewrite (IH b Hab), <- (isspace_fold x), <- (isspace_fold y), Hxy.
    reflexivity.
Qed.

Lemma deriv_fold (x y : char) (p : pattern) :
  fold x = fold y -> deriv x p = deriv y p.
Proof.
  intros H. induction p as [| | c | | cs | p IHp q IHq | p IHp q IHq | p IHp];
    cbn [deriv]; rewrite ?H, ?IHp, ?IHq; reflexivity.
Qed.

Lemma fullmatch_fold (a b : str) :
  List.map fold a = List.map fold b ->
  forall p, fullmatch p a = fullmatch p b.
Proof.
  revert b. induction a as [| x a IH]; intros [| y b] H p; try discriminate.
  - reflexivity.
  - injection H as Hxy Hab. cbn [fullmatch].
    rewrite (deriv_fold x y p Hxy). apply IH. assumption.
Qed.

Lemma violations_fold (t : RuleTable) (a b : str) :
  List.map fold a = List.map fold b -> violations t a = violations t b.
Proof.
  intros H. unfold violations. f_equal. apply filter_ext.
  intros r. unfold search. apply fullmatch_fold. assumption.
Qed.

(** C9: for a command that is not blank, a matching hard-block rule makes
    the guard block with the rule's message among the diagnostics; a command
    that no rule matches is allowed with empty diagnostics (and so is a
    blank command, which is not evaluated); two commands that differ only in
    the case of their letters get the same decision, so [SUDO ls] is decided
    as [sudo ls] is. *)
Theorem guard_blocks_matches (t : RuleTable) (cmd : str) :
  (forall r, In r (hard_block t) -> blank cmd = false ->
             search (rule_pattern r) cmd = true ->
             allowed (evaluate t cmd) = false
             /\ In (message r) (diagnostics (evaluate t cmd)))
  /\ ((forall r, In r (hard_block t ++ secret_access t) ->
                 search (rule_pattern r) cmd = false) ->
      evaluate t cmd = {| allowed := true; diagnostics := [] |})
  /\ (blank cmd = true ->
      evaluate t cmd = {| allowed := true; diagnostics := [] |})
  /\ (forall cmd', List.map fold cmd' = List.map fold cmd ->
                   evaluate t cmd' = evaluate t cmd)
  /\ evaluate t (u "SUDO ls") = evaluate t (u "sudo ls").
Proof.
  assert (Hfold : forall a b, List.map fold a = List.map fold b ->
                              evaluate t a = evaluate t b).
  { intros a b H. unfold evaluate.
    rewrite (blank_fold a b H), (violations_fold t a b H). reflexivity. }
  split; [| split; [| split; [| split]]].
  - intros r Hin Hnb Hm. unfold evaluate. rewrite Hnb.
    assert (Hv : In (message r) (violations t cmd)).
    { unfold violations. apply in_map. apply filter_In. split; [| exact Hm].
      apply in_or_app. left. exact Hin. }
    cbn [allowed diagnostics]. split; [| exact Hv].
    destruct (violations t cmd); [destruct Hv | reflexivity].
  - intros Hnone. unfold evaluate. destruct (blank cmd); [reflexivity |].
    assert (Hv : violations t cmd = []).
    { unfold violations.
      induction (hard_block t ++ secret_access t) as [| r rs IH];
        [reflexivity |].
      cbn [filter]. rewrite (Hnone r (or_introl eq_refl)).
      apply IH. intros r' Hr'. apply Hnone. right. exact Hr'. }
    rewrite Hv. reflexivity.
  - intros Hb. unfold evaluate. rewrite Hb. reflexivity.
  - intros cmd' H. apply Hfold. exact H.
  - apply Hfold. reflexivity.
Qed.

(** On the sample table: [SUDO ls] is blocked with the message of the
    privilege-escalation rule, as [sudo ls] is. *)
Lemma sudo_is_blocked :
  allowed (evaluate sample_table (u "SUDO ls")) = false
  /\ In (u "privilege escalation is not allowed")
        (diagnostics (evaluate sample_table (u "SUDO ls"))).
Proof.
  apply (proj1 (guard_blocks_matches sample_table (u "SUDO ls"))
               {| rule_pattern := PSeq (lit (u "sudo")) (POneOf [32%N; 9%N]);
                  message := u "privilege escalation is not allowed" |}).
  - left. reflexivity.
  - reflexivity.
  - vm_compute. reflexivity.
Defined.

Example git_status_is_allowed :
  evaluate sample_table (u "git status")
  = {| allowed := true; diagnostics := [] |}.
Proof. vm_compute. reflexivity. Qed.

End GuardFacts.

(* ===================================================================== *)
(** * The hook on concrete projects *)
(* ===================================================================== *)

Module Runs.
Import Scripted Scenario.

(** C1 at a lint script that runs out of time: the exception ends the
    hook. *)
Lemma lint_timeout_run :
  fst (hook lint_times_out) = Uncaught TimeoutExpired.
Proof.
  refine (proj2 (proj2 (proj1 (proj2
    (stage_error_is_unhandled lint_times_out _ _
       (mkCall npm_lint (u "/work") 900 (inl TimeoutExpired)) _ _ _))
    TimeoutExpired eq_refl))).
  - vm_compute. reflexivity.
  - vm_compute. right. left. reflexivity.
  - reflexivity.
Defined.

(** C1 as stated fails here: the lint child timed out, yet no failure is
    recorded, nothing is printed and the hook does not end with the block
    verdict but with the unhandled exception. *)
Lemma lint_timeout_not_recorded :
  existsb errored (calls (snd (hook lint_times_out))) = true
  /\ existsb failed (calls (snd (hook lint_times_out))) = false
  /\ printed (snd (hook lint_times_out)) = []
  /\ fst (hook lint_times_out) = Uncaught TimeoutExpired
  /\ fst (hook lint_times_out) <> Exit block.
Proof.
  vm_compute. repeat split; discriminate.
Qed.


(** C5 at failing tests: the verdict is block. *)
Lemma failing_tests_run :
  fst (hook handler_changed) = Exit block.
Proof.
  refine (proj1 (proj1 (verdict_iff_stage_failed handler_changed _ _ _)
                       block _)).
  - vm_compute. reflexivity.
  - reflexivity.
Defined.

(** C5 as stated fails here: the test stage errored (its child cannot be
    started), and the hook ends with neither verdict: the exit status is 1. *)
Lemma errored_stage_gives_no_verdict :
  existsb errored (calls (snd (hook tests_cannot_start))) = true
  /\ fst (hook tests_cannot_start) = Uncaught OSError
  /\ exit_status (fst (hook tests_cannot_start)) <> block
  /\ exit_status (fst (hook tests_cannot_start)) <> allow.
Proof.
  vm_compute. repeat split; discriminate.
Qed.

(** C6 at a lint script that exits 1 with "3 problems". *)
Lemma three_problems_run :
  fst (main (boot lint_three_problems)) = inr block
  /\ printed (snd (main (boot lint_three_problems)))
     = [u "QUALITY GATE BLOCKED STOP:"; u "- lint failed"; u "- 3 problems";
        [10%N] ++ u "Fix the failures, then continue."].
Proof.
  split; [vm_compute; reflexivity |].
  refine (eq_trans
    (proj2 (proj1 (proj2
      (diagnostics_of_failures lint_three_problems block
         (snd (main (boot lint_three_problems))) _)) _)) _).
  - vm_compute. reflexivity.
  - vm_compute. reflexivity.
  - vm_compute. reflexivity.
Defined.



(** C3 as stated fails here: no typecheck script is declared and no
    type-checker is installed, yet the typecheck stage runs and its failure
    blocks. *)
Lemma typecheck_runs_without_tooling :
  has_script no_typechecker (u "/work") (u "typecheck") = false
  /\ path_exists no_typechecker (u "/work/node_modules/.bin/tsc") = false
  /\ path_exists no_typechecker (u "/work/node_modules") = false
  /\ stage_ran Typecheck (calls (snd (hook no_typechecker))) = true
  /\ fst (hook no_typechecker) = Exit block
  /\ In (u "- typecheck failed") (printed (snd (hook no_typechecker))).
Proof.
  vm_compute. repeat split. right. left. reflexivity.
Qed.



(** C6 as stated fails here: the lint stage failed with 3 problems, yet
    the hook does not block and emits nothing, because the typecheck child
    timed out afterwards and ended the run. *)
Lemma failure_lost_to_timeout :
  existsb failed (calls (snd (hook lint_fails_then_timeout))) = true
  /\ fst (hook lint_fails_then_timeout) = Uncaught TimeoutExpired
  /\ fst (hook lint_fails_then_timeout) <> Exit block
  /\ printed (snd (hook lint_fails_then_timeout)) = [].
Proof.
  vm_compute. repeat split; discriminate.
Qed.



Example readme_only_run :
  fst (hook readme_only) = Exit allow
  /\ List.map c_cmd (calls (snd (hook readme_only)))
     = [git_diff_cmd; npm_lint; npm_typecheck].
Proof. vm_compute. split; reflexivity. Qed.

Example broken_manifest_falls_back :
  fst (hook broken_manifest) = Exit allow
  /\ List.map c_cmd (calls (snd (hook broken_manifest))) = [git_diff_cmd; npx_tsc].
Proof. vm_compute. split; reflexivity. Qed.

End Runs.

(* ===================================================================== *)
(** * The changed paths (line 55 and line 93) *)
(* ===================================================================== *)

Module PathFacts.

Lemma startswith_iff (s prefix : str) :
  startswith s prefix = true <-> exists rest, s = prefix ++ rest.
Proof.
  revert s. induction prefix as [| p prefix IH]; intros s.
  - split; [intros _; exists s; reflexivity | destruct s; reflexivity].
  - destruct s as [| c s]; cbn [startswith].
    + split; [discriminate | intros (rest & H); discriminate].
    + rewrite andb_true_iff, N.eqb_eq, IH. split.
      * intros (-> & rest & ->). exists rest. reflexivity.
      * intros (rest & H). injection H as -> ->. split; [reflexivity |].
        exists rest. reflexivity.
Qed.

Lemma lstrip_head (s : str) (c : char) (t : str) :
  lstrip s = c :: t -> isspace c = false.
Proof.
  induction s as [| x s IH]; cbn [lstrip]; [discriminate |].
  destruct (isspace x) eqn:E; [exact IH |].
  intros [= <- _]. exact E.
Qed.

Lemma rstrip_cons (c : char) (s : str) :
  isspace c = false -> exists t, rstrip (c :: s) = c :: t.
Proof.
  intros H. cbn [rstrip]. destruct (rstrip s) as [| y t].
  - rewrite H. exists []. reflexivity.
  - exists (y :: t). reflexivity.
Qed.

Lemma rstrip_last (s pre : str) (c : char) :
  rstrip s = pre ++ [c] -> isspace c = false.
Proof.
  revert pre. induction s as [| x s IH]; intros pre; cbn [rstrip].
  - destruct pre; discriminate.
  - destruct (rstrip s) as [| y t] eqn:E.
    + destruct (isspace x) eqn:Ex; [destruct pre; discriminate |].
      destruct pre as [| a [| b pre]]; try discriminate.
      intros [= <-]. exact Ex.
    + destruct pre as [| a pre]; [discriminate |].
      intros [= _ H]. apply (IH pre). exact H.
Qed.

Lemma lstrip_blank (s : str) : forallb isspace s = true -> lstrip s = [].
Proof.
  induction s as [| x s IH]; [reflexivity |].
  cbn [forallb lstrip]. intros H. apply andb_true_iff in H.
  destruct H as [-> Hs]. apply IH. exact Hs.
Qed.

(** After a carriage return, a line feed belongs to the same line break. *)
Lemma splitlines_from_cr (cur s' : str) :
  splitlines_from cur (13%N :: s')
  = rev cur :: splitlines_from []
                 (match s' with
                  | 10%N :: s'' => s''
                  | _ => s'
                  end).
Proof.
  destruct s' as [| y s'']; [reflexivity |].
  destruct y as [| p]; [reflexivity |].
  do 4 (try destruct p as [p | p |]); reflexivity.
Qed.

Lemma after_cr_suffix (s' : str) :
  let rest := match s' with
              | 10%N :: s'' => s''
              | _ => s'
              end in
  List.length rest <= List.length s' /\ forall k, In k rest -> In k s'.
Proof.
  destruct s' as [| y s'']; [cbn; auto |].
  destruct y as [| p]; [cbn; auto |].
  do 4 (try destruct p as [p | p |]); cbn; auto.
Qed.

Lemma splitlines_from_chars (s cur : str) (line : str) (c : char) :
  In line (splitlines_from cur s) -> In c line -> In c cur \/ In c s.
Proof.
  revert cur. induction s as [s IH] using (induction_ltof1 _ (@List.length char)).
  unfold ltof in IH. intros cur. destruct s as [| x s'].
  - cbn [splitlines_from]. destruct cur as [| y cur]; [intros [] |].
    intros [<- | []] Hc. left. apply in_rev. exact Hc.
  - assert (Hclose : forall rest,
              List.length rest < List.length (x :: s') ->
              (forall k, In k rest -> In k s') ->
              In line (rev cur :: splitlines_from [] rest) ->
              In c line -> In c cur \/ In c (x :: s')).
    { intros rest Hlen Hsub [<- | Hin] Hc.
      - left. apply in_rev. exact Hc.
      - destruct (IH rest Hlen [] Hin Hc) as [[] | Hr].
        right. right. apply Hsub. exact Hr. }
    destruct (N.eqb_spec x 13) as [-> | Hx].
    + rewrite splitlines_from_cr.
      destruct (after_cr_suffix s') as (Hlen & Hsub).
      apply Hclose; [cbn [List.length]; lia | exact Hsub].
    + cbn [splitlines_from]. apply N.eqb_neq in Hx. rewrite Hx.
      destruct (islinebreak x);
        [apply Hclose; cbn [List.length]; auto; lia |].
      intros Hin Hc.
      destruct (IH s' (Nat.lt_succ_diag_r _) (x :: cur) Hin Hc) as [[<- | Hk] | Hk].
      * right. left. reflexivity.
      * left. exact Hk.
      * right. right. exact Hk.
Qed.

Lemma isspace_replace (c : char) :
  isspace (if (c =? 92)%N then 47%N else c) = isspace c.
Proof.
  destruct (N.eqb_spec c 92) as [-> | _]; reflexivity.
Qed.

Lemma strip_head (s : str) (c : char) (t : str) :
  strip s = c :: t -> isspace c = false.
Proof.
  unfold strip. destruct (lstrip s) as [| x rest] eqn:E; [discriminate |].
  pose proof (lstrip_head s x rest E) as Hx.
  destruct (rstrip_cons x rest Hx) as (t' & ->).
  intros [= <- _]. exact Hx.
Qed.

(** Every changed path the hook works with is a line of the lookup's
    output, stripped and with backslashes replaced: it is not empty, holds
    no backslash and neither starts nor ends with whitespace. *)
Theorem changed_files_normalised (out : str) (p : str) :
  In p (changed_files out) ->
  p <> []
  /\ ~ In 92%N p
  /\ (forall c rest, p = c :: rest -> isspace c = false)
  /\ (forall pre c, p = pre ++ [c] -> isspace c = false)
  /\ exists line, In line (splitlines out)
                  /\ p = replace_char 92%N 47%N (strip line).
Proof.
  unfold changed_files. intros H. apply in_map_iff in H.
  destruct H as (line & <- & H). apply filter_In in H. destruct H as [Hin Ht].
  unfold replace_char.
  split; [| split; [| split; [| split]]].
  - destruct (strip line); [discriminate | discriminate].
  - intros H92. apply in_map_iff in H92. destruct H92 as (c & Hc & _).
    destruct (c =? 92)%N eqn:E; [discriminate |].
    rewrite Hc in E. discriminate.
  - intros c rest Heq. destruct (strip line) as [| x t] eqn:E; [discriminate |].
    injection Heq as <- _. rewrite isspace_replace.
    apply (strip_head line x t E).
  - intros pre c Heq. apply map_eq_app in Heq.
    destruct Heq as (pre' & tail & Hs & _ & Htail).
    destruct tail as [| x [| y tail]]; try discriminate.
    injection Htail as <-. rewrite isspace_replace.
    apply (rstrip_last (lstrip line) pre' x). exact Hs.
  - exists line. auto.
Qed.

Lemma changed_files_sample :
  changed_files (u "  src\lib\db.ts " ++ [13%N; 10%N; 10%N] ++ u "README.md")
  = [u "src/lib/db.ts"; u "README.md"].
Proof. vm_compute. reflexivity. Qed.

(** The first path of a Windows-style listing, as the hook sees it. *)
Lemma changed_files_normalised_run :
  ~ In 92%N (u "src/lib/db.ts").
Proof.
  refine (proj1 (proj2
    (changed_files_normalised
       (u "  src\lib\db.ts " ++ [13%N; 10%N; 10%N] ++ u "README.md")
       (u "src/lib/db.ts") _))).
  vm_compute. left. reflexivity.
Defined.

(** When the lookup prints nothing but whitespace and line breaks, no file
    counts as changed. *)
Theorem blank_diff_changes_nothing (out : str) :
  forallb isspace out = true -> changed_files out = [].
Proof.
  intros Hblank. unfold changed_files.
  assert (Hnone : forall line, In line (splitlines out) ->
                               truthy (strip line) = false).
  { intros line Hin. unfold strip. rewrite lstrip_blank; [reflexivity |].
    apply forallb_forall. intros c Hc.
    destruct (splitlines_from_chars out [] line c Hin Hc) as [[] | Hout].
    rewrite forallb_forall in Hblank. apply Hblank. exact Hout. }
  induction (splitlines out) as [| line lines IH]; [reflexivity |].
  cbn [filter]. rewrite (Hnone line (or_introl eq_refl)).
  apply IH. intros l Hl. apply Hnone. right. exact Hl.
Qed.

Lemma blank_diff_run : changed_files ([32%N; 10%N; 13%N; 10%N; 9%N]) = [].
Proof.
  refine (blank_diff_changes_nothing _ _). vm_compute. reflexivity.
Defined.

(** A set of changed paths makes the test stage eligible exactly when one
    of them is a path below src, app, pages, server, api or prisma: the
    directory name, a slash, and anything after it.  The test is anchored at
    the start of the path and distinguishes upper from lower case. *)
Theorem touches_core_by_directory (changed : list str) :
  touches_core changed = true
  <-> exists p dir rest,
        In p changed
        /\ In dir [u "src"; u "app"; u "pages"; u "server"; u "api"; u "prisma"]
        /\ p = dir ++ u "/" ++ rest.
Proof.
  unfold touches_core, startswith_any. rewrite existsb_exists.
  change TEST_RELEVANT_PREFIXES
    with (List.map (fun d => d ++ u "/")
            [u "src"; u "app"; u "pages"; u "server"; u "api"; u "prisma"]).
  split.
  - intros (p & Hp & Hex). apply existsb_exists in Hex.
    destruct Hex as (prefix & Hin & Hs). apply in_map_iff in Hin.
    destruct Hin as (dir & <- & Hdir). apply startswith_iff in Hs.
    destruct Hs as (rest & ->). rewrite <- app_assoc in Hp.
    exists (dir ++ u "/" ++ rest), dir, rest. auto.
  - intros (p & dir & rest & Hp & Hdir & ->). exists (dir ++ u "/" ++ rest).
    split; [exact Hp |]. apply existsb_exists. exists (dir ++ u "/").
    split; [apply (in_map (fun d => d ++ u "/")); exact Hdir |].
    apply startswith_iff. exists rest. rewrite <- app_assoc. reflexivity.
Qed.

Example nested_src_is_not_core :
  touches_core [u "docs/src/notes.md"; u "SRC/index.ts"; u "srcs/a.ts"] = false.
Proof. reflexivity. Qed.

End PathFacts.

(* ===================================================================== *)
(** * More about has_script and about whole runs *)
(* ===================================================================== *)

Section GateExtras.

Context {W : Type} {host : Host W}.

Lemma str_eqb_eq (a b : str) : str_eqb a b = true <-> a = b.
Proof.
  revert b. induction a as [| x a IH]; intros [| y b]; cbn [str_eqb];
    try (split; [discriminate | discriminate]).
  - split; reflexivity.
  - rewrite andb_true_iff, N.eqb_eq, IH. split.
    + intros [-> ->]. reflexivity.
    + intros [= -> ->]. auto.
Qed.

Lemma dict_has_key (entries : list (str * json)) (key : str) :
  existsb (fun kv => str_eqb (fst kv) key) entries = true
  <-> exists v, In (key, v) entries.
Proof.
  rewrite existsb_exists. split.
  - intros ([k v] & Hin & Hk). apply str_eqb_eq in Hk. cbn [fst] in Hk.
    subst k. exists v. exact Hin.
  - intros (v & Hin). exists (key, v). split; [exact Hin |].
    apply str_eqb_eq. reflexivity.
Qed.


(** has_script on a manifest that parses to an object whose "scripts"
    entry is an object: the answer is whether the name is one of its keys,
    whatever the value under the key. *)
Theorem has_script_reads_keys (w : W) (pd : Path) (text : str)
        (entries scripts : list (str * json)) (script : str) :
  path_exists w (joinpath pd (u "package.json")) = true ->
  read_text w (joinpath pd (u "package.json")) = inr text ->
  json_loads text = inr (JDict entries) ->
  dict_get entries (u "scripts") = JDict scripts ->
  (has_script w pd script = true <-> exists v, In (script, v) scripts).
Proof.
  intros Hex Hread Hparse Hget.
  rewrite <- dict_has_key.
  unfold has_script, has_script_try. rewrite Hex, Hread, Hparse.
  cbn [negb json_get]. rewrite Hget.
  destruct scripts as [| kv rest]; cbn [json_truthy json_contains existsb].
  - split; discriminate.
  - reflexivity.
Qed.


(** has_script does not insist on an object under "scripts": a non-empty
    string there is searched for the name as a substring, and an array is
    searched for the name as an element. *)
Theorem has_script_loose_shapes (w : W) (pd : Path) (text : str)
        (entries : list (str * json)) (script : str) :
  path_exists w (joinpath pd (u "package.json")) = true ->
  read_text w (joinpath pd (u "package.json")) = inr text ->
  json_loads text = inr (JDict entries) ->
  (forall t, dict_get entries (u "scripts") = JStr t -> t <> [] ->
             has_script w pd script = contains t script)
  /\ (forall items, dict_get entries (u "scripts") = JList items ->
                    (has_script w pd script = true <-> In (JStr script) items)).
Proof.
  intros Hex Hread Hparse.
  unfold has_script, has_script_try. rewrite Hex, Hread, Hparse.
  cbn [negb json_get]. split.
  - intros t -> Ht. destruct t as [| c t]; [contradiction | reflexivity].
  - intros items ->.
    destruct items as [| x items]; cbn [json_truthy json_contains].
    + cbn [existsb]. split; [discriminate | intros []].
    + rewrite existsb_exists. split.
      * intros (y & Hin & Hy). destruct y; try discriminate.
        cbn [json_eq_str] in Hy. apply str_eqb_eq in Hy. subst s. exact Hin.
      * intros Hin. exists (JStr script). split; [exact Hin |].
        cbn [json_eq_str]. apply str_eqb_eq. reflexivity.
Qed.

Lemma in_stage_order_length (l : list Stage) :
  in_stage_order l = true -> List.length l <= 3.
Proof.
  destruct l as [| a [| b [| c [| d l]]]]; cbn [List.length]; try lia.
  destruct a, b, c, d; cbn; discriminate.
Qed.

Lemma stage_calls_length (pd : Path) (cs : list Call) :
  StageCalls pd cs -> List.length cs <= 3.
Proof.
  intros [Hord Hall].
  assert (Hlen : List.length (stages_of cs) = List.length cs).
  { clear Hord. induction Hall as [| c cs (Hs & _) _ IH]; [reflexivity |].
    unfold stages_of in *. cbn [flat_map]. rewrite length_app, IH.
    unfold is_stage_call in Hs.
    destruct (stage_of_cmd (c_cmd c)); [reflexivity | discriminate]. }
  rewrite <- Hlen. apply in_stage_order_length. exact Hord.
Qed.

(** One run starts at most four children: first the lookup [git diff
    --name-only] with a limit of 30 seconds, then at most one child per
    stage, in stage order, each with a limit of 900 seconds; all of them in
    the project directory. *)
Theorem run_starts_at_most_four (w : W) (pd : Path) res (st : @St W) :
  main (boot w) = (res, st) ->
  project_dir_of w = inr pd ->
  List.length (calls st) <= 4
  /\ in_stage_order (stages_of (calls st)) = true
  /\ (forall c rest, calls st = c :: rest ->
        c_cmd c = git_diff_cmd /\ c_timeout c = 30
        /\ Forall (fun k => is_stage_call k = true /\ c_timeout k = 900) rest)
  /\ (forall c, In c (calls st) -> c_cwd c = pd).
Proof.
  intros H Hpd. pose proof (main_summary w res st H) as Hs.
  rewrite Hpd in Hs. destruct Hs as [Hshape _].
  split; [| split; [apply (log_shape_stage_order pd); exact Hshape |]].
  - destruct Hshape as [-> | (o & cs & -> & Hcs)]; [cbn; lia |].
    cbn [List.length]. pose proof (stage_calls_length pd cs Hcs). lia.
  - destruct Hshape as [-> | (o & cs & -> & _ & Hall)].
    + split; [discriminate | intros c []].
    + split.
      * intros c rest [= <- <-]. repeat split.
        eapply Forall_impl; [| exact Hall]. cbn beta. tauto.
      * intros c [<- | Hin]; [reflexivity |].
        rewrite Forall_forall in Hall. apply (Hall c Hin).
Qed.

Lemma seq_last_raise (pre pre' post : list Call) (c c' : Call) :
  pre ++ c :: post = pre' ++ [c'] -> post = [] \/ In c pre'.
Proof.
  intros H. destruct post as [| z post] using rev_ind; [left; reflexivity |].
  right. clear IHpost.
  change (pre ++ c :: post ++ [z]) with (pre ++ (c :: post) ++ [z]) in H.
  rewrite app_assoc in H. apply app_inj_tail in H. destruct H as [<- _].
  apply in_or_app. right. left. reflexivity.
Qed.

(** When a child raises (it timed out or could not be started) the run
    ends there: no later child is started, nothing is printed, and [main]
    raises that exception. *)
Theorem raise_stops_the_run (w : W) res (st : @St W)
        (pre post : list Call) (c : Call) (e : exn) :
  main (boot w) = (res, st) ->
  calls st = pre ++ c :: post ->
  c_outcome c = inl e ->
  post = [] /\ res = inl e /\ printed st = [].
Proof.
  intros H Hlog Hc. pose proof (main_summary w res st H) as Hs.
  destruct (project_dir_of w) as [e0 | pd].
  { destruct Hs as (_ & Hnil & _). rewrite Hnil in Hlog.
    destruct pre; discriminate. }
  destruct Hs as [_ Hrun].
  assert (Hin : In c (calls st)).
  { rewrite Hlog. apply in_or_app. right. left. reflexivity. }
  destruct (gate_run_raise _ _ _ c e Hrun Hin Hc) as [-> Hout].
  split; [| auto].
  destruct (gate_run_raised _ _ _ Hrun)
    as [(_ & pre' & c' & Hlog' & _ & Hpre') | (Hall & _)].
  - rewrite Hlog in Hlog'.
    destruct (seq_last_raise _ _ _ _ _ Hlog') as [Hnil | Hinpre]; [exact Hnil |].
    rewrite forallb_forall in Hpre'. specialize (Hpre' c Hinpre).
    unfold completed in Hpre'. rewrite Hc in Hpre'. discriminate.
  - rewrite forallb_forall in Hall. specialize (Hall c Hin).
    unfold completed in Hall. rewrite Hc in Hall. discriminate.
Qed.

Lemma opt_step_cmds (cmd : option (list str)) (pd : Path) (errors : list str)
      (st : @St W) res (st' : @St W) :
  opt_step cmd pd errors st = (res, st') ->
  exists seg, calls st' = calls st ++ seg
              /\ Forall (fun c => cmd = Some (c_cmd c)) seg.
Proof.
  destruct cmd as [c |]; cbn [opt_step].
  - unfold stage_step.
    destruct (subprocess_run (world st) c pd 900) as [o w'].
    intros [= _ <-]. eexists. split; [reflexivity |].
    constructor; [reflexivity | constructor].
  - unfold ret. intros [= _ <-]. exists []. rewrite app_nil_r.
    split; [reflexivity | constructor].
Qed.

Lemma lint_cmd_known (w : W) (pd : Path) (pm : str) (cmd : list str) :
  lint_cmd w pd pm = Some cmd -> In cmd (stage_cmds pm).
Proof.
  unfold lint_cmd, stage_cmds.
  destruct (has_script w pd (u "lint")); [intros [= <-]; cbn [In]; auto |].
  destruct (path_exists w (joinpath pd (u "node_modules/.bin/eslint")));
    [intros [= <-]; cbn [In]; auto | discriminate].
Qed.

Lemma typecheck_cmd_known (w : W) (pd : Path) (pm : str) :
  In (typecheck_cmd w pd pm) (stage_cmds pm).
Proof.
  unfold typecheck_cmd, stage_cmds.
  destruct (has_script w pd (u "typecheck")); cbn [In]; auto.
Qed.

Lemma test_cmd_known (w : W) (pd : Path) (pm : str) (changed : list str)
      (cmd : list str) :
  test_cmd w pd pm changed = Some cmd -> In cmd (stage_cmds pm).
Proof.
  unfold test_cmd, stage_cmds.
  destruct (touches_core changed && has_script w pd (u "test"));
    [intros [= <-]; cbn [In]; auto 6 | discriminate].
Qed.

Lemma pipeline_cmds (pd : Path) (pm : str) (changed : list str)
      (st : @St W) res (st' : @St W) :
  pipeline pd pm changed st = (res, st') ->
  exists cs, calls st' = calls st ++ cs
             /\ Forall (fun c => In (c_cmd c) (stage_cmds pm)) cs.
Proof.
  unfold pipeline. unfold bind at 1. rewrite run_lint_plan.
  destruct (opt_step (lint_cmd (world st) pd pm) pd [] st) as [r1 st1] eqn:E1.
  destruct (opt_step_cmds _ _ _ _ _ _ E1) as (l & Hc1 & Hl).
  assert (Hl' : Forall (fun c => In (c_cmd c) (stage_cmds pm)) l).
  { eapply Forall_impl; [| exact Hl]. intros c Hc.
    apply (lint_cmd_known (world st) pd). exact Hc. }
  destruct r1 as [e | e1].
  { intros [= _ <-]. exists l. auto. }
  unfold bind at 1. rewrite run_typecheck_plan.
  change (stage_step (typecheck_cmd (world st1) pd pm) pd e1 st1)
    with (opt_step (Some (typecheck_cmd (world st1) pd pm)) pd e1 st1).
  destruct (opt_step (Some (typecheck_cmd (world st1) pd pm)) pd e1 st1)
    as [r2 st2] eqn:E2.
  destruct (opt_step_cmds _ _ _ _ _ _ E2) as (t & Hc2 & Ht).
  assert (Ht' : Forall (fun c => In (c_cmd c) (stage_cmds pm)) t).
  { eapply Forall_impl; [| exact Ht]. intros c [= Hc]. rewrite <- Hc.
    apply typecheck_cmd_known. }
  destruct r2 as [e | e2].
  { intros [= _ <-]. exists (l ++ t). rewrite Hc2, Hc1, app_assoc.
    split; [reflexivity | apply Forall_app; auto]. }
  unfold bind at 1. rewrite run_tests_plan.
  destruct (opt_step (test_cmd (world st2) pd pm changed) pd e2 st2)
    as [r3 st3] eqn:E3.
  destruct (opt_step_cmds _ _ _ _ _ _ E3) as (x & Hc3 & Hx).
  assert (Hx' : Forall (fun c => In (c_cmd c) (stage_cmds pm)) x).
  { eapply Forall_impl; [| exact Hx]. intros c Hc.
    apply (test_cmd_known (world st2) pd pm changed). exact Hc. }
  assert (Hall : calls st3 = calls st ++ (l ++ t ++ x)
                 /\ Forall (fun c => In (c_cmd c) (stage_cmds pm)) (l ++ t ++ x)).
  { rewrite Hc3, Hc2, Hc1, <- !app_assoc.
    split; [reflexivity | repeat (apply Forall_app; split); auto]. }
  destruct r3 as [e | e3].
  { intros [= _ <-]. exists (l ++ t ++ x). exact Hall. }
  intros Hagg. rewrite (aggregate_calls _ _ _ _ Hagg).
  exists (l ++ t ++ x). exact Hall.
Qed.

(** The only command lines the hook ever starts are [git diff
    --name-only] and, for one package manager [pm] among pnpm, yarn, bun and
    npm that is the same for the whole run: [pm run lint], [npx eslint .],
    [pm run typecheck], [npx tsc --noEmit] and [pm test]. *)
Theorem only_known_commands (w : W) res (st : @St W) :
  main (boot w) = (res, st) ->
  exists pm, In pm managers
             /\ forall c, In c (calls st) ->
                          c_cmd c = git_diff_cmd \/ In (c_cmd c) (stage_cmds pm).
Proof.
  rewrite main_boot.
  assert (Hnone : forall x : W,
            exists pm, In pm managers
                       /\ forall c, In c (calls (boot x)) ->
                                    c_cmd c = git_diff_cmd
                                    \/ In (c_cmd c) (stage_cmds pm)).
  { intros x. exists (u "npm"). split; [cbn; auto | intros c []]. }
  destruct (project_dir_of w) as [e | pd]; [intros [= _ <-]; apply Hnone |].
  destruct (negb (path_exists w (joinpath pd (u "package.json"))));
    [intros [= _ <-]; apply Hnone |].
  destruct (negb (path_exists w (joinpath pd (u ".git"))));
    [intros [= _ <-]; apply Hnone |].
  destruct (subprocess_run w git_diff_cmd pd 30) as [o w1].
  assert (Hone : exists pm, In pm managers
            /\ forall c, In c [mkCall git_diff_cmd pd 30 o] ->
                         c_cmd c = git_diff_cmd \/ In (c_cmd c) (stage_cmds pm)).
  { exists (u "npm"). split; [cbn; auto |].
    intros c [<- | []]. left. reflexivity. }
  destruct o as [e | diff]; [intros [= _ <-]; exact Hone |].
  destruct (changed_files (stdout diff)) as [| p rest];
    [intros [= _ <-]; exact Hone |].
  intros H. destruct (pipeline_cmds _ _ _ _ _ _ H) as (cs & Hc & Hall).
  exists (hd [] (detect_pm w1 pd)). split.
  - unfold managers.
    destruct (detect_pm_cases w1 pd) as [E | [E | [E | E]]]; rewrite E;
      cbn [hd In]; auto.
  - rewrite Hc. cbn [calls app]. intros c [<- | Hin]; [left; reflexivity |].
    right. rewrite Forall_forall in Hall. apply Hall. exact Hin.
Qed.

Lemma pipeline_typecheck (pd : Path) (pm : str) (changed : list str)
      (st : @St W) (code : Z) (st' : @St W) :
  pipeline pd pm changed st = (inr code, st') ->
  stage_ran Typecheck (calls st') = true.
Proof.
  unfold pipeline. unfold bind at 1. rewrite run_lint_plan.
  destruct (opt_step (lint_cmd (world st) pd pm) pd [] st) as [[e | e1] st1] eqn:E1;
    [discriminate |].
  unfold bind at 1. rewrite run_typecheck_plan.
  change (stage_step (typecheck_cmd (world st1) pd pm) pd e1 st1)
    with (opt_step (Some (typecheck_cmd (world st1) pd pm)) pd e1 st1).
  destruct (opt_step (Some (typecheck_cmd (world st1) pd pm)) pd e1 st1)
    as [[e | e2] st2] eqn:E2; [discriminate |].
  pose proof (opt_step_trace _ _ _ _ _ _ E2) as Hs2.
  unfold bind at 1. rewrite run_tests_plan.
  destruct (opt_step (test_cmd (world st2) pd pm changed) pd e2 st2)
    as [[e | e3] st3] eqn:E3; [discriminate |].
  pose proof (opt_step_trace _ _ _ _ _ _ E3) as Hs3.
  intros Hagg. rewrite (aggregate_calls _ _ _ _ Hagg).
  unfold stage_ran. rewrite Hs3, Hs2. cbn [stage_list].
  rewrite typecheck_cmd_stage, !existsb_app. cbn [existsb stage_rank Nat.eqb].
  rewrite orb_true_r. reflexivity.
Qed.

(** Once a file has changed, a run that returns has run the typecheck
    stage, whatever the lint stage did: a lint failure does not end the
    run, and there is no condition under which typecheck is left out. *)
Theorem typecheck_always_runs (w : W) (pd : Path) (diff : CompletedProcess)
        (w1 : W) (code : Z) (st : @St W) :
  project_dir_of w = inr pd ->
  path_exists w (joinpath pd (u "package.json")) = true ->
  path_exists w (joinpath pd (u ".git")) = true ->
  subprocess_run w git_diff_cmd pd 30 = (inr diff, w1) ->
  changed_files (stdout diff) <> [] ->
  main (boot w) = (inr code, st) ->
  stage_ran Typecheck (calls st) = true.
Proof.
  intros Hpd Hm Hg Hdiff Hchanged.
  rewrite main_boot, Hpd, Hm, Hg, Hdiff. cbn [negb].
  destruct (changed_files (stdout diff)) as [| p rest]; [contradiction |].
  apply pipeline_typecheck.
Qed.

(** The project directory is [Path(CLAUDE_PROJECT_DIR)] when the variable
    is set (even to the empty text) and [Path(os.getcwd())] otherwise, and
    every child runs with [str] of that path as its directory.  The current
    directory is asked for in both cases: when [os.getcwd] raises, the hook
    ends with that exception before anything else, even if the variable is
    set. *)
Theorem project_dir_from_environment (w : W) :
  (forall e, getcwd w = inl e -> hook w = (Uncaught e, boot w))
  /\ (forall cwd res (st : @St W),
        getcwd w = inr cwd ->
        main (boot w) = (res, st) ->
        forall c, In c (calls st) ->
          c_cwd c = Path_of match environ_get w (u "CLAUDE_PROJECT_DIR") with
                            | Some dir => dir
                            | None => cwd
                            end).
Proof.
  split.
  - intros e He. unfold hook. rewrite main_boot. unfold project_dir_of.
    rewrite He. reflexivity.
  - intros cwd res st Hcwd H c Hin.
    pose proof (main_summary w res st H) as Hs. unfold project_dir_of in Hs.
    rewrite Hcwd in Hs. destruct Hs as [Hshape _].
    destruct Hshape as [Hnil | (o & cs & Hlog & _ & Hall)].
    + rewrite Hnil in Hin. destruct Hin.
    + rewrite Hlog in Hin. destruct Hin as [<- | Hin]; [reflexivity |].
      rewrite Forall_forall in Hall. apply (Hall c Hin).
Qed.

Example path_of_samples :
  Path_of (u "/work/") = u "/work"
  /\ Path_of (u "") = u "."
  /\ Path_of (u "//srv//app/./x/") = u "//srv/app/x"
  /\ Path_of (u "///a/../b") = u "/a/../b"
  /\ joinpath (u ".") (u "package.json") = u "package.json"
  /\ joinpath (u "/") (u ".git") = u "/.git"
  /\ joinpath (u "/work") (u "node_modules/.bin/eslint")
     = u "/work/node_modules/.bin/eslint".
Proof. vm_compute. repeat split. Qed.

Lemma failure_label_short (cmd : list str) :
  List.length (failure_label cmd) <= 16.
Proof.
  unfold failure_label, classify.
  destruct cmd as [| a [| b [| c [| d cmd]]]]; cbn [List.length]; try lia;
    repeat match goal with
           | |- context [if ?b then _ else _] => destruct b
           end; cbn; lia.
Qed.

Lemma report_bounded (c : Call) :
  List.length (report c) <= 2
  /\ forall x, In x (report c) -> List.length x <= 2000.
Proof.
  unfold report. destruct (failed c); [| split; [cbn; lia | intros x []]].
  destruct (c_outcome c) as [e | r]; [split; [cbn; lia | intros x []] |].
  unfold excerpt, slice_to. split.
  - destruct (truthy (strip (stderr r))); cbn [List.length]; lia.
  - intros x [<- | Hx].
    + pose proof (failure_label_short (c_cmd c)). lia.
    + destruct (truthy (strip (stderr r))); [| destruct Hx].
      destruct Hx as [<- | []]. apply firstn_le_length.
Qed.

Lemma stream_text_app (a b : list str) :
  stream_text (a ++ b) = stream_text a ++ stream_text b.
Proof. unfold stream_text. apply flat_map_app. Qed.

Lemma report_chars (c : Call) :
  List.length (stream_text (List.map (fun e => u "- " ++ e) (report c))) <= 2022.
Proof.
  unfold report. destruct (failed c); [| cbn; lia].
  destruct (c_outcome c) as [e | r]; [cbn; lia |].
  pose proof (failure_label_short (c_cmd c)) as Hlabel.
  unfold excerpt, slice_to.
  destruct (truthy (strip (stderr r))).
  - pose proof (firstn_le_length 2000 (strip (stderr r))) as Hcut.
    cbn [List.map stream_text flat_map]. rewrite !length_app.
    change (List.length (u "- ")) with 2. cbn [List.length].
    unfold str, char in *. lia.
  - cbn [List.map stream_text flat_map]. rewrite !length_app.
    change (List.length (u "- ")) with 2. cbn [List.length].
    unfold str, char in *. lia.
Qed.

Lemma reports_chars (cs : list Call) :
  List.length (stream_text (List.map (fun e => u "- " ++ e) (flat_map report cs)))
  <= 2022 * List.length cs.
Proof.
  induction cs as [| c cs IH]; [cbn; lia |].
  cbn [flat_map]. rewrite map_app, stream_text_app, length_app.
  pose proof (report_chars c). cbn [List.length]. unfold str, char in *. lia.
Qed.

Lemma reports_bounded (cs : list Call) :
  List.length (flat_map report cs) <= 2 * List.length cs
  /\ forall x, In x (flat_map report cs) -> List.length x <= 2000.
Proof.
  induction cs as [| c cs [IHlen IHin]]; [split; [cbn; lia | intros x []] |].
  cbn [flat_map List.length]. destruct (report_bounded c) as [Hlen Hin].
  split.
  - rewrite length_app. lia.
  - intros x Hx. apply in_app_or in Hx. destruct Hx; auto.
Qed.

(** The whole text of a verdict is small: at most 8 prints, none of more
    than 2002 characters, 6127 characters in all. *)
Lemma verdict_text_bounded (pd : Path) (log : list Call) :
  LogShape pd log ->
  List.length (verdict_text (flat_map report log)) <= 8
  /\ (forall text, In text (verdict_text (flat_map report log)) ->
                   List.length text <= 2002)
  /\ List.length (stream_text (verdict_text (flat_map report log))) <= 61 + 3 * 2022.
Proof.
  intros Hshape.
  assert (Herrs : exists cs, flat_map report log = flat_map report cs
                             /\ List.length cs <= 3).
  { destruct Hshape as [-> | (o & cs & -> & Hcs)];
      [exists []; split; [reflexivity | cbn; lia] |].
    exists cs. split; [| apply (stage_calls_length pd); exact Hcs].
    cbn [flat_map]. rewrite report_not_stage by reflexivity. reflexivity. }
  destruct Herrs as (cs & -> & Hcs).
  destruct (reports_bounded cs) as [Hlen Hin].
  pose proof (reports_chars cs) as Hchars.
  destruct (flat_map report cs) as [| x errs] eqn:E;
    [split; [cbn; lia | split; [intros text [] | cbn; lia]] |].
  unfold verdict_text, block_text. split; [| split].
  - rewrite !length_app, length_map. cbn [List.length] in *.
    unfold str, char in *. lia.
  - intros text Htext. apply in_app_or in Htext.
    destruct Htext as [[<- | []] | Htext]; [cbn; lia |].
    apply in_app_or in Htext. destruct Htext as [Htext | [<- | []]]; [| cbn; lia].
    apply in_map_iff in Htext. destruct Htext as (y & <- & Hy).
    rewrite length_app. specialize (Hin y Hy).
    change (List.length (u "- ")) with 2. unfold str, char in *. lia.
  - rewrite !stream_text_app, !length_app.
    change (List.length (stream_text [u "QUALITY GATE BLOCKED STOP:"])) with 27.
    change (List.length
              (stream_text [[10%N] ++ u "Fix the failures, then continue."]))
      with 34.
    unfold str, char in *. nia.
Qed.

(** What the hook writes on its error stream stays small however much the
    tools write: at most 8 prints (the header, a label and an excerpt for
    each of the three stages, the closing instruction), none with a text of
    more than 2002 characters, and at most 6127 characters in all, the line
    feed after each text included. *)
Theorem report_is_bounded (w : W) res (st : @St W) :
  main (boot w) = (res, st) ->
  List.length (printed st) <= 8
  /\ (forall text, In text (printed st) -> List.length text <= 2002)
  /\ List.length (stream_text (printed st)) <= 61 + 3 * 2022.
Proof.
  intros H. pose proof (main_summary w res st H) as Hs.
  destruct (project_dir_of w) as [e | pd].
  { destruct Hs as (_ & _ & ->). split; [cbn; lia |].
    split; [intros text [] | cbn; lia]. }
  destruct Hs as [Hshape Hrun].
  destruct (verdict_text_bounded pd (calls st) Hshape) as (Hn & Heach & Hall).
  assert (Hprefix : exists rest,
            verdict_text (flat_map report (calls st)) = printed st ++ rest).
  { destruct res as [e | code].
    - destruct (gate_run_raised _ _ _ Hrun)
        as [(-> & _) | (_ & rest & Htext & _)].
      + exists (verdict_text (flat_map report (calls st))). reflexivity.
      + exists rest. exact Htext.
    - destruct (gate_run_returns _ _ _ Hrun) as (_ & _ & ->).
      exists []. rewrite app_nil_r. reflexivity. }
  destruct Hprefix as (rest & Hprefix). rewrite Hprefix in Hn, Heach, Hall.
  rewrite length_app in Hn. rewrite stream_text_app, length_app in Hall.
  split; [lia |]. split; [| lia].
  intros text Htext. apply Heach. apply in_or_app. left. exact Htext.
Qed.

End GateExtras.

(* ===================================================================== *)
(** * The further facts on concrete projects *)
(* ===================================================================== *)

Module MoreRuns.
Import Scripted Scenario MoreScenarios.

(** The manifest of the examples declares a lint script. *)
Lemma declared_lint_run :
  has_script readme_only (u "/work") (u "lint") = true.
Proof.
  refine (proj2 (has_script_reads_keys readme_only (u "/work") manifest_all
                   [(u "scripts",
                     JDict [(u "lint", JStr (u "next lint"));
                            (u "typecheck", JStr (u "tsc --noEmit"));
                            (u "test", JStr (u "jest"))])]
                   [(u "lint", JStr (u "next lint"));
                    (u "typecheck", JStr (u "tsc --noEmit"));
                    (u "test", JStr (u "jest"))]
                   (u "lint") _ _ _ _) _).
  - vm_compute. reflexivity.
  - vm_compute. reflexivity.
  - vm_compute. reflexivity.
  - vm_compute. reflexivity.
  - exists (JStr (u "next lint")). left. reflexivity.
Defined.

(** With "scripts": "lint-staged" has_script finds a lint script. *)
Lemma string_scripts_run :
  has_script (mkShelf manifest_string) (u "/work") (u "lint") = true.
Proof.
  refine (eq_trans
    (proj1 (has_script_loose_shapes (mkShelf manifest_string) (u "/work")
              manifest_string [(u "scripts", JStr (u "lint-staged"))]
              (u "lint") _ _ _)
           (u "lint-staged") _ _) _).
  - vm_compute. reflexivity.
  - vm_compute. reflexivity.
  - vm_compute. reflexivity.
  - reflexivity.
  - discriminate.
  - vm_compute. reflexivity.
Defined.

Example array_scripts_run :
  has_script (mkShelf manifest_array) (u "/work") (u "test") = true
  /\ has_script (mkShelf manifest_array) (u "/work") (u "typecheck") = false.
Proof. vm_compute. split; reflexivity. Qed.

(** A run with all three stages has four children. *)
Lemma four_children_run :
  List.length (calls (snd (main (boot handler_changed)))) <= 4.
Proof.
  refine (proj1 (run_starts_at_most_four handler_changed (u "/work")
                   (fst (main (boot handler_changed)))
                   (snd (main (boot handler_changed))) _ _)).
  - vm_compute. reflexivity.
  - vm_compute. reflexivity.
Defined.

(** The lint script times out: the run ends with that call. *)
Lemma timeout_ends_run :
  fst (main (boot lint_times_out)) = inl TimeoutExpired.
Proof.
  refine (proj1 (proj2
    (raise_stops_the_run lint_times_out
       (fst (main (boot lint_times_out))) (snd (main (boot lint_times_out)))
       [mkCall git_diff_cmd (u "/work") 30
               (inr (mkCompleted 0 (u "src/App.tsx" ++ [10%N]) []))]
       []
       (mkCall npm_lint (u "/work") 900 (inl TimeoutExpired))
       TimeoutExpired _ _ _))).
  - vm_compute. reflexivity.
  - vm_compute. reflexivity.
  - reflexivity.
Defined.

(** The commands of a run with failing tests. *)
Lemma known_commands_run :
  exists pm, In pm managers
             /\ forall c, In c (calls (snd (main (boot handler_changed)))) ->
                          c_cmd c = git_diff_cmd \/ In (c_cmd c) (stage_cmds pm).
Proof.
  refine (only_known_commands handler_changed
            (fst (main (boot handler_changed))) _ _).
  vm_compute. reflexivity.
Defined.

(** Lint fails with 3 problems; typecheck runs all the same. *)
Lemma typecheck_after_failed_lint :
  stage_ran Typecheck (calls (snd (main (boot lint_three_problems)))) = true.
Proof.
  refine (typecheck_always_runs lint_three_problems (u "/work")
            (mkCompleted 0 (u "README.md" ++ [10%N]) []) lint_three_problems
            block (snd (main (boot lint_three_problems))) _ _ _ _ _ _).
  - vm_compute. reflexivity.
  - vm_compute. reflexivity.
  - vm_compute. reflexivity.
  - vm_compute. reflexivity.
  - vm_compute. discriminate.
  - vm_compute. reflexivity.
Defined.

(** A lint script that writes 3000 characters and a failing typecheck:
    the hook makes 6 prints, the longest of 2002 characters, 2106
    characters in all. *)
Lemma verbose_lint_run :
  List.length (stream_text (printed (snd (main (boot verbose_lint)))))
  <= 61 + 3 * 2022.
Proof.
  refine (proj2 (proj2
    (report_is_bounded verbose_lint (fst (main (boot verbose_lint))) _ _))).
  vm_compute. reflexivity.
Defined.

Example verbose_lint_lines :
  List.map (@List.length char) (printed (snd (main (boot verbose_lint))))
  = [26; 13; 2002; 18; 8; 33]
  /\ List.length (stream_text (printed (snd (main (boot verbose_lint))))) = 2106.
Proof. vm_compute. split; reflexivity. Qed.

(** A project directory given as /work/ : the children run in /work. *)
Lemma trailing_slash_run :
  Forall (fun c => c_cwd c = u "/work") (calls (snd (main (boot slash_dir)))).
Proof.
  apply Forall_forall.
  refine (proj2 (project_dir_from_environment slash_dir) (u "/")
                (fst (main (boot slash_dir))) (snd (main (boot slash_dir))) _ _).
  - reflexivity.
  - vm_compute. reflexivity.
Defined.

Example trailing_slash_commands :
  List.map c_cmd (calls (snd (main (boot slash_dir))))
  = [git_diff_cmd; npm_lint; npm_typecheck].
Proof. vm_compute. reflexivity. Qed.

(** With an error stream that cannot be written, a failed lint stage ends
    the hook with the exception of the first print, not with status 2. *)
Example muted_run :
  existsb failed (calls (snd (hook (mute lint_three_problems)))) = true
  /\ fst (hook (mute lint_three_problems)) = Uncaught OSError
  /\ printed (snd (hook (mute lint_three_problems))) = [].
Proof. vm_compute. repeat split. Qed.

End MoreRuns.
